(** * FoodTime storefront: catalog filter, sort, cart and favorites

    Shallow embedding of the state logic of [src/app/page.tsx]
    (component [FoodTimeApp]) and the properties of its specification.

    Modelling choices, fixed once here:
    - a value of the TypeScript type [number] that the data model uses as an
      integer (item ids, quantities) is a [Z].  A decimal one (prices,
      ratings, the value a comparator returns) is a [Q]: the decimal the
      JSON text writes.  The order of two such numbers is the order of the
      doubles they are read as; their sums and products are not, so the
      cart total is computed in IEEE-754 binary64 ([Module Binary64]), and
      [getTotalPrice] is its reading in exact arithmetic;
    - a JavaScript string is a [string] holding the bytes of its UTF-8
      encoding; [toLowerCase] is the lowercase conversion of the Unicode
      standard, on code points, with the tables of the Unicode Character
      Database;
    - [String.prototype.localeCompare] depends on the host's locale, so it
      is a parameter of the development ([Section Sorting]);
    - [Array.prototype.sort] is the stable sort the language standard asks
      for, written as a right-to-left insertion sort that reads only the
      sign of the comparator;
    - arrays that the component only reads or rebuilds are lists; the
      derived views [filteredItems] and [sortedItems], where the
      specification talks about the input being left untouched, are also
      run over a heap of arrays ([Module Heap]) in which [sort] works in
      place. *)

From Stdlib Require Import List ZArith QArith Bool Lia.
From Stdlib Require Import Strings.Ascii Strings.String.
From Stdlib Require Import Sorting.Permutation Sorting.Sorted.
From Stdlib Require Import Structures.OrdersEx.
From Stdlib Require Import Floats.SpecFloat.
Import ListNotations.

Local Open Scope Z_scope.

(** ** The JavaScript built-ins the component calls *)

Module JS.

(** *** Strings *)

Definition isUpperUnit (c : ascii) : bool :=
  ((65 <=? nat_of_ascii c) && (nat_of_ascii c <=? 90))%nat.

Definition lowerUnit (c : ascii) : ascii :=
  if isUpperUnit c then ascii_of_nat (nat_of_ascii c + 32) else c.

(** What [toLowerCase] does to a string of ASCII units
    ([toLowerCase_ascii] below). *)
Fixpoint asciiLowerCase (s : string) : string :=
  match s with
  | EmptyString => EmptyString
  | String c s' => String (lowerUnit c) (asciiLowerCase s')
  end.

Fixpoint isAscii (s : string) : bool :=
  match s with
  | EmptyString => true
  | String c s' => (nat_of_ascii c <? 128)%nat && isAscii s'
  end.

(** *** Code points

    A string is held as the bytes of its UTF-8 encoding, the way a string
    literal of this file is read.  [toLowerCase] works on code points, so
    the bytes are decoded first and the result is encoded again.  A byte
    that starts no well-formed sequence is carried through as the
    out-of-range number [0x110000 + byte]. *)

Definition byteOf (c : ascii) : Z := Z.of_N (N_of_ascii c).

Definition unitOf (z : Z) : ascii := ascii_of_N (Z.to_N z).

Definition isContinuation (b : Z) : bool := (0x80 <=? b) && (b <? 0xC0).

Definition strayByte (b : Z) : Z := 0x110000 + b.

Fixpoint utf8Decode (s : string) : list Z :=
  match s with
  | EmptyString => []
  | String c0 s0 =>
      let b0 := byteOf c0 in
      if b0 <? 0x80 then b0 :: utf8Decode s0
      else
        match s0 with
        | String c1 s1 =>
            let b1 := byteOf c1 in
            if (0xC0 <=? b0) && (b0 <? 0xE0) && isContinuation b1
            then ((b0 - 0xC0) * 64 + (b1 - 0x80)) :: utf8Decode s1
            else
              match s1 with
              | String c2 s2 =>
                  let b2 := byteOf c2 in
                  if (0xE0 <=? b0) && (b0 <? 0xF0)
                     && isContinuation b1 && isContinuation b2
                  then ((b0 - 0xE0) * 4096 + (b1 - 0x80) * 64 + (b2 - 0x80))
                         :: utf8Decode s2
                  else
                    match s2 with
                    | String c3 s3 =>
                        let b3 := byteOf c3 in
                        let cp := (b0 - 0xF0) * 262144 + (b1 - 0x80) * 4096
                                  + (b2 - 0x80) * 64 + (b3 - 0x80) in
                        if (0xF0 <=? b0) && (b0 <? 0xF8)
                           && isContinuation b1 && isContinuation b2
                           && isContinuation b3 && (cp <? 0x110000)
                        then cp :: utf8Decode s3
                        else strayByte b0 :: utf8Decode s0
                    | EmptyString => strayByte b0 :: utf8Decode s0
                    end
              | EmptyString => strayByte b0 :: utf8Decode s0
              end
        | EmptyString => [strayByte b0]
        end
  end.

Definition utf8EncodeOne (cp : Z) : list Z :=
  if cp <? 0x80 then [cp]
  else if cp <? 0x800 then [0xC0 + cp / 64; 0x80 + cp mod 64]
  else if cp <? 0x10000
  then [0xE0 + cp / 4096; 0x80 + (cp / 64) mod 64; 0x80 + cp mod 64]
  else if cp <? 0x110000
  then [0xF0 + cp / 262144; 0x80 + (cp / 4096) mod 64;
        0x80 + (cp / 64) mod 64; 0x80 + cp mod 64]
  else [cp - 0x110000].

Fixpoint stringOfBytes (l : list Z) : string :=
  match l with
  | [] => EmptyString
  | b :: rest => String (unitOf b) (stringOfBytes rest)
  end.

Fixpoint utf8Encode (cps : list Z) : string :=
  match cps with
  | [] => EmptyString
  | cp :: rest => (stringOfBytes (utf8EncodeOne cp) ++ utf8Encode rest)%string
  end.

(** *** The case tables of the Unicode Character Database (version 14.0)

    [lowercaseTable]: the simple lowercase mappings from U+0080 on, as
    runs [(first, last, step, offset)]; [casedTable] and
    [caseIgnorableTable]: the code points with the properties Cased and
    Case_Ignorable, as ranges. *)

Definition lowercaseTable : list (Z * Z * Z * Z) :=
  [
   (0xC0, 0xD6, 1, 32); (0xD8, 0xDE, 1, 32); (0x100, 0x12E, 2, 1);
   (0x132, 0x136, 2, 1); (0x139, 0x147, 2, 1); (0x14A, 0x176, 2, 1);
   (0x178, 0x178, 1, -121); (0x179, 0x17D, 2, 1); (0x181, 0x181, 1, 210);
   (0x182, 0x184, 2, 1); (0x186, 0x186, 1, 206); (0x187, 0x187, 1, 1);
   (0x189, 0x18A, 1, 205); (0x18B, 0x18B, 1, 1); (0x18E, 0x18E, 1, 79);
   (0x18F, 0x18F, 1, 202); (0x190, 0x190, 1, 203); (0x191, 0x191, 1, 1);
   (0x193, 0x193, 1, 205); (0x194, 0x194, 1, 207); (0x196, 0x196, 1, 211);
   (0x197, 0x197, 1, 209); (0x198, 0x198, 1, 1); (0x19C, 0x19C, 1, 211);
   (0x19D, 0x19D, 1, 213); (0x19F, 0x19F, 1, 214); (0x1A0, 0x1A4, 2, 1);
   (0x1A6, 0x1A6, 1, 218); (0x1A7, 0x1A7, 1, 1); (0x1A9, 0x1A9, 1, 218);
   (0x1AC, 0x1AC, 1, 1); (0x1AE, 0x1AE, 1, 218); (0x1AF, 0x1AF, 1, 1);
   (0x1B1, 0x1B2, 1, 217); (0x1B3, 0x1B5, 2, 1); (0x1B7, 0x1B7, 1, 219);
   (0x1B8, 0x1B8, 1, 1); (0x1BC, 0x1BC, 1, 1); (0x1C4, 0x1C4, 1, 2);
   (0x1C5, 0x1C5, 1, 1); (0x1C7, 0x1C7, 1, 2); (0x1C8, 0x1C8, 1, 1);
   (0x1CA, 0x1CA, 1, 2); (0x1CB, 0x1DB, 2, 1); (0x1DE, 0x1EE, 2, 1);
   (0x1F1, 0x1F1, 1, 2); (0x1F2, 0x1F4, 2, 1); (0x1F6, 0x1F6, 1, -97);
   (0x1F7, 0x1F7, 1, -56); (0x1F8, 0x21E, 2, 1); (0x220, 0x220, 1, -130);
   (0x222, 0x232, 2, 1); (0x23A, 0x23A, 1, 10795); (0x23B, 0x23B, 1, 1);
   (0x23D, 0x23D, 1, -163); (0x23E, 0x23E, 1, 10792); (0x241, 0x241, 1, 1);
   (0x243, 0x243, 1, -195); (0x244, 0x244, 1, 69); (0x245, 0x245, 1, 71);
   (0x246, 0x24E, 2, 1); (0x370, 0x372, 2, 1); (0x376, 0x376, 1, 1);
   (0x37F, 0x37F, 1, 116); (0x386, 0x386, 1, 38); (0x388, 0x38A, 1, 37);
   (0x38C, 0x38C, 1, 64); (0x38E, 0x38F, 1, 63); (0x391, 0x3A1, 1, 32);
   (0x3A3, 0x3AB, 1, 32); (0x3CF, 0x3CF, 1, 8); (0x3D8, 0x3EE, 2, 1);
   (0x3F4, 0x3F4, 1, -60); (0x3F7, 0x3F7, 1, 1); (0x3F9, 0x3F9, 1, -7);
   (0x3FA, 0x3FA, 1, 1); (0x3FD, 0x3FF, 1, -130); (0x400, 0x40F, 1, 80);
   (0x410, 0x42F, 1, 32); (0x460, 0x480, 2, 1); (0x48A, 0x4BE, 2, 1);
   (0x4C0, 0x4C0, 1, 15); (0x4C1, 0x4CD, 2, 1); (0x4D0, 0x52E, 2, 1);
   (0x531, 0x556, 1, 48); (0x10A0, 0x10C5, 1, 7264); (0x10C7, 0x10C7, 1, 7264);
   (0x10CD, 0x10CD, 1, 7264); (0x13A0, 0x13EF, 1, 38864); (0x13F0, 0x13F5, 1, 8);
   (0x1C90, 0x1CBA, 1, -3008); (0x1CBD, 0x1CBF, 1, -3008); (0x1E00, 0x1E94, 2, 1);
   (0x1E9E, 0x1E9E, 1, -7615); (0x1EA0, 0x1EFE, 2, 1); (0x1F08, 0x1F0F, 1, -8);
   (0x1F18, 0x1F1D, 1, -8); (0x1F28, 0x1F2F, 1, -8); (0x1F38, 0x1F3F, 1, -8);
   (0x1F48, 0x1F4D, 1, -8); (0x1F59, 0x1F5F, 2, -8); (0x1F68, 0x1F6F, 1, -8);
   (0x1F88, 0x1F8F, 1, -8); (0x1F98, 0x1F9F, 1, -8); (0x1FA8, 0x1FAF, 1, -8);
   (0x1FB8, 0x1FB9, 1, -8); (0x1FBA, 0x1FBB, 1, -74); (0x1FBC, 0x1FBC, 1, -9);
   (0x1FC8, 0x1FCB, 1, -86); (0x1FCC, 0x1FCC, 1, -9); (0x1FD8, 0x1FD9, 1, -8);
   (0x1FDA, 0x1FDB, 1, -100); (0x1FE8, 0x1FE9, 1, -8); (0x1FEA, 0x1FEB, 1, -112);
   (0x1FEC, 0x1FEC, 1, -7); (0x1FF8, 0x1FF9, 1, -128); (0x1FFA, 0x1FFB, 1, -126);
   (0x1FFC, 0x1FFC, 1, -9); (0x2126, 0x2126, 1, -7517); (0x212A, 0x212A, 1, -8383);
   (0x212B, 0x212B, 1, -8262); (0x2132, 0x2132, 1, 28); (0x2160, 0x216F, 1, 16);
   (0x2183, 0x2183, 1, 1); (0x24B6, 0x24CF, 1, 26); (0x2C00, 0x2C2F, 1, 48);
   (0x2C60, 0x2C60, 1, 1); (0x2C62, 0x2C62, 1, -10743); (0x2C63, 0x2C63, 1, -3814);
   (0x2C64, 0x2C64, 1, -10727); (0x2C67, 0x2C6B, 2, 1); (0x2C6D, 0x2C6D, 1, -10780);
   (0x2C6E, 0x2C6E, 1, -10749); (0x2C6F, 0x2C6F, 1, -10783); (0x2C70, 0x2C70, 1, -10782);
   (0x2C72, 0x2C72, 1, 1); (0x2C75, 0x2C75, 1, 1); (0x2C7E, 0x2C7F, 1, -10815);
   (0x2C80, 0x2CE2, 2, 1); (0x2CEB, 0x2CED, 2, 1); (0x2CF2, 0x2CF2, 1, 1);
   (0xA640, 0xA66C, 2, 1); (0xA680, 0xA69A, 2, 1); (0xA722, 0xA72E, 2, 1);
   (0xA732, 0xA76E, 2, 1); (0xA779, 0xA77B, 2, 1); (0xA77D, 0xA77D, 1, -35332);
   (0xA77E, 0xA786, 2, 1); (0xA78B, 0xA78B, 1, 1); (0xA78D, 0xA78D, 1, -42280);
   (0xA790, 0xA792, 2, 1); (0xA796, 0xA7A8, 2, 1); (0xA7AA, 0xA7AA, 1, -42308);
   (0xA7AB, 0xA7AB, 1, -42319); (0xA7AC, 0xA7AC, 1, -42315); (0xA7AD, 0xA7AD, 1, -42305);
   (0xA7AE, 0xA7AE, 1, -42308); (0xA7B0, 0xA7B0, 1, -42258); (0xA7B1, 0xA7B1, 1, -42282);
   (0xA7B2, 0xA7B2, 1, -42261); (0xA7B3, 0xA7B3, 1, 928); (0xA7B4, 0xA7C2, 2, 1);
   (0xA7C4, 0xA7C4, 1, -48); (0xA7C5, 0xA7C5, 1, -42307); (0xA7C6, 0xA7C6, 1, -35384);
   (0xA7C7, 0xA7C9, 2, 1); (0xA7D0, 0xA7D0, 1, 1); (0xA7D6, 0xA7D8, 2, 1);
   (0xA7F5, 0xA7F5, 1, 1); (0xFF21, 0xFF3A, 1, 32); (0x10400, 0x10427, 1, 40);
   (0x104B0, 0x104D3, 1, 40); (0x10570, 0x1057A, 1, 39); (0x1057C, 0x1058A, 1, 39);
   (0x1058C, 0x10592, 1, 39); (0x10594, 0x10595, 1, 39); (0x10C80, 0x10CB2, 1, 64);
   (0x118A0, 0x118BF, 1, 32); (0x16E40, 0x16E5F, 1, 32); (0x1E900, 0x1E921, 1, 34)
  ].

Definition casedTable : list (Z * Z) :=
  [
   (0x41, 0x5A); (0x61, 0x7A); (0xAA, 0xAA); (0xB5, 0xB5);
   (0xBA, 0xBA); (0xC0, 0xD6); (0xD8, 0xF6); (0xF8, 0x1BA);
   (0x1BC, 0x1BF); (0x1C4, 0x293); (0x295, 0x2B8); (0x2C0, 0x2C1);
   (0x2E0, 0x2E4); (0x345, 0x345); (0x370, 0x373); (0x376, 0x377);
   (0x37A, 0x37D); (0x37F, 0x37F); (0x386, 0x386); (0x388, 0x38A);
   (0x38C, 0x38C); (0x38E, 0x3A1); (0x3A3, 0x3F5); (0x3F7, 0x481);
   (0x48A, 0x52F); (0x531, 0x556); (0x560, 0x588); (0x10A0, 0x10C5);
   (0x10C7, 0x10C7); (0x10CD, 0x10CD); (0x10D0, 0x10FA); (0x10FD, 0x10FF);
   (0x13A0, 0x13F5); (0x13F8, 0x13FD); (0x1C80, 0x1C88); (0x1C90, 0x1CBA);
   (0x1CBD, 0x1CBF); (0x1D00, 0x1DBF); (0x1E00, 0x1F15); (0x1F18, 0x1F1D);
   (0x1F20, 0x1F45); (0x1F48, 0x1F4D); (0x1F50, 0x1F57); (0x1F59, 0x1F59);
   (0x1F5B, 0x1F5B); (0x1F5D, 0x1F5D); (0x1F5F, 0x1F7D); (0x1F80, 0x1FB4);
   (0x1FB6, 0x1FBC); (0x1FBE, 0x1FBE); (0x1FC2, 0x1FC4); (0x1FC6, 0x1FCC);
   (0x1FD0, 0x1FD3); (0x1FD6, 0x1FDB); (0x1FE0, 0x1FEC); (0x1FF2, 0x1FF4);
   (0x1FF6, 0x1FFC); (0x2071, 0x2071); (0x207F, 0x207F); (0x2090, 0x209C);
   (0x2102, 0x2102); (0x2107, 0x2107); (0x210A, 0x2113); (0x2115, 0x2115);
   (0x2119, 0x211D); (0x2124, 0x2124); (0x2126, 0x2126); (0x2128, 0x2128);
   (0x212A, 0x212D); (0x212F, 0x2134); (0x2139, 0x2139); (0x213C, 0x213F);
   (0x2145, 0x2149); (0x214E, 0x214E); (0x2160, 0x217F); (0x2183, 0x2184);
   (0x24B6, 0x24E9); (0x2C00, 0x2CE4); (0x2CEB, 0x2CEE); (0x2CF2, 0x2CF3);
   (0x2D00, 0x2D25); (0x2D27, 0x2D27); (0x2D2D, 0x2D2D); (0xA640, 0xA66D);
   (0xA680, 0xA69D); (0xA722, 0xA787); (0xA78B, 0xA78E); (0xA790, 0xA7CA);
   (0xA7D0, 0xA7D1); (0xA7D3, 0xA7D3); (0xA7D5, 0xA7D9); (0xA7F5, 0xA7F6);
   (0xA7F8, 0xA7FA); (0xAB30, 0xAB5A); (0xAB5C, 0xAB68); (0xAB70, 0xABBF);
   (0xFB00, 0xFB06); (0xFB13, 0xFB17); (0xFF21, 0xFF3A); (0xFF41, 0xFF5A);
   (0x10400, 0x1044F); (0x104B0, 0x104D3); (0x104D8, 0x104FB); (0x10570, 0x1057A);
   (0x1057C, 0x1058A); (0x1058C, 0x10592); (0x10594, 0x10595); (0x10597, 0x105A1);
   (0x105A3, 0x105B1); (0x105B3, 0x105B9); (0x105BB, 0x105BC); (0x10780, 0x10780);
   (0x10783, 0x10785); (0x10787, 0x107B0); (0x107B2, 0x107BA); (0x10C80, 0x10CB2);
   (0x10CC0, 0x10CF2); (0x118A0, 0x118DF); (0x16E40, 0x16E7F); (0x1D400, 0x1D454);
   (0x1D456, 0x1D49C); (0x1D49E, 0x1D49F); (0x1D4A2, 0x1D4A2); (0x1D4A5, 0x1D4A6);
   (0x1D4A9, 0x1D4AC); (0x1D4AE, 0x1D4B9); (0x1D4BB, 0x1D4BB); (0x1D4BD, 0x1D4C3);
   (0x1D4C5, 0x1D505); (0x1D507, 0x1D50A); (0x1D50D, 0x1D514); (0x1D516, 0x1D51C);
   (0x1D51E, 0x1D539); (0x1D53B, 0x1D53E); (0x1D540, 0x1D544); (0x1D546, 0x1D546);
   (0x1D54A, 0x1D550); (0x1D552, 0x1D6A5); (0x1D6A8, 0x1D6C0); (0x1D6C2, 0x1D6DA);
   (0x1D6DC, 0x1D6FA); (0x1D6FC, 0x1D714); (0x1D716, 0x1D734); (0x1D736, 0x1D74E);
   (0x1D750, 0x1D76E); (0x1D770, 0x1D788); (0x1D78A, 0x1D7A8); (0x1D7AA, 0x1D7C2);
   (0x1D7C4, 0x1D7CB); (0x1DF00, 0x1DF09); (0x1DF0B, 0x1DF1E); (0x1E900, 0x1E943);
   (0x1F130, 0x1F149); (0x1F150, 0x1F169); (0x1F170, 0x1F189)
  ].

Definition caseIgnorableTable : list (Z * Z) :=
  [
   (0x27, 0x27); (0x2E, 0x2E); (0x3A, 0x3A); (0x5E, 0x5E);
   (0x60, 0x60); (0xA8, 0xA8); (0xAD, 0xAD); (0xAF, 0xAF);
   (0xB4, 0xB4); (0xB7, 0xB8); (0x2B0, 0x36F); (0x374, 0x375);
   (0x37A, 0x37A); (0x384, 0x385); (0x387, 0x387); (0x483, 0x489);
   (0x559, 0x559); (0x55F, 0x55F); (0x591, 0x5BD); (0x5BF, 0x5BF);
   (0x5C1, 0x5C2); (0x5C4, 0x5C5); (0x5C7, 0x5C7); (0x5F4, 0x5F4);
   (0x600, 0x605); (0x610, 0x61A); (0x61C, 0x61C); (0x640, 0x640);
   (0x64B, 0x65F); (0x670, 0x670); (0x6D6, 0x6DD); (0x6DF, 0x6E8);
   (0x6EA, 0x6ED); (0x70F, 0x70F); (0x711, 0x711); (0x730, 0x74A);
   (0x7A6, 0x7B0); (0x7EB, 0x7F5); (0x7FA, 0x7FA); (0x7FD, 0x7FD);
   (0x816, 0x82D); (0x859, 0x85B); (0x888, 0x888); (0x890, 0x891);
   (0x898, 0x89F); (0x8C9, 0x902); (0x93A, 0x93A); (0x93C, 0x93C);
   (0x941, 0x948); (0x94D, 0x94D); (0x951, 0x957); (0x962, 0x963);
   (0x971, 0x971); (0x981, 0x981); (0x9BC, 0x9BC); (0x9C1, 0x9C4);
   (0x9CD, 0x9CD); (0x9E2, 0x9E3); (0x9FE, 0x9FE); (0xA01, 0xA02);
   (0xA3C, 0xA3C); (0xA41, 0xA42); (0xA47, 0xA48); (0xA4B, 0xA4D);
   (0xA51, 0xA51); (0xA70, 0xA71); (0xA75, 0xA75); (0xA81, 0xA82);
   (0xABC, 0xABC); (0xAC1, 0xAC5); (0xAC7, 0xAC8); (0xACD, 0xACD);
   (0xAE2, 0xAE3); (0xAFA, 0xAFF); (0xB01, 0xB01); (0xB3C, 0xB3C);
   (0xB3F, 0xB3F); (0xB41, 0xB44); (0xB4D, 0xB4D); (0xB55, 0xB56);
   (0xB62, 0xB63); (0xB82, 0xB82); (0xBC0, 0xBC0); (0xBCD, 0xBCD);
   (0xC00, 0xC00); (0xC04, 0xC04); (0xC3C, 0xC3C); (0xC3E, 0xC40);
   (0xC46, 0xC48); (0xC4A, 0xC4D); (0xC55, 0xC56); (0xC62, 0xC63);
   (0xC81, 0xC81); (0xCBC, 0xCBC); (0xCBF, 0xCBF); (0xCC6, 0xCC6);
   (0xCCC, 0xCCD); (0xCE2, 0xCE3); (0xD00, 0xD01); (0xD3B, 0xD3C);
   (0xD41, 0xD44); (0xD4D, 0xD4D); (0xD62, 0xD63); (0xD81, 0xD81);
   (0xDCA, 0xDCA); (0xDD2, 0xDD4); (0xDD6, 0xDD6); (0xE31, 0xE31);
   (0xE34, 0xE3A); (0xE46, 0xE4E); (0xEB1, 0xEB1); (0xEB4, 0xEBC);
   (0xEC6, 0xEC6); (0xEC8, 0xECD); (0xF18, 0xF19); (0xF35, 0xF35);
   (0xF37, 0xF37); (0xF39, 0xF39); (0xF71, 0xF7E); (0xF80, 0xF84);
   (0xF86, 0xF87); (0xF8D, 0xF97); (0xF99, 0xFBC); (0xFC6, 0xFC6);
   (0x102D, 0x1030); (0x1032, 0x1037); (0x1039, 0x103A); (0x103D, 0x103E);
   (0x1058, 0x1059); (0x105E, 0x1060); (0x1071, 0x1074); (0x1082, 0x1082);
   (0x1085, 0x1086); (0x108D, 0x108D); (0x109D, 0x109D); (0x10FC, 0x10FC);
   (0x135D, 0x135F); (0x1712, 0x1714); (0x1732, 0x1733); (0x1752, 0x1753);
   (0x1772, 0x1773); (0x17B4, 0x17B5); (0x17B7, 0x17BD); (0x17C6, 0x17C6);
   (0x17C9, 0x17D3); (0x17D7, 0x17D7); (0x17DD, 0x17DD); (0x180B, 0x180F);
   (0x1843, 0x1843); (0x1885, 0x1886); (0x18A9, 0x18A9); (0x1920, 0x1922);
   (0x1927, 0x1928); (0x1932, 0x1932); (0x1939, 0x193B); (0x1A17, 0x1A18);
   (0x1A1B, 0x1A1B); (0x1A56, 0x1A56); (0x1A58, 0x1A5E); (0x1A60, 0x1A60);
   (0x1A62, 0x1A62); (0x1A65, 0x1A6C); (0x1A73, 0x1A7C); (0x1A7F, 0x1A7F);
   (0x1AA7, 0x1AA7); (0x1AB0, 0x1ACE); (0x1B00, 0x1B03); (0x1B34, 0x1B34);
   (0x1B36, 0x1B3A); (0x1B3C, 0x1B3C); (0x1B42, 0x1B42); (0x1B6B, 0x1B73);
   (0x1B80, 0x1B81); (0x1BA2, 0x1BA5); (0x1BA8, 0x1BA9); (0x1BAB, 0x1BAD);
   (0x1BE6, 0x1BE6); (0x1BE8, 0x1BE9); (0x1BED, 0x1BED); (0x1BEF, 0x1BF1);
   (0x1C2C, 0x1C33); (0x1C36, 0x1C37); (0x1C78, 0x1C7D); (0x1CD0, 0x1CD2);
   (0x1CD4, 0x1CE0); (0x1CE2, 0x1CE8); (0x1CED, 0x1CED); (0x1CF4, 0x1CF4);
   (0x1CF8, 0x1CF9); (0x1D2C, 0x1D6A); (0x1D78, 0x1D78); (0x1D9B, 0x1DFF);
   (0x1FBD, 0x1FBD); (0x1FBF, 0x1FC1); (0x1FCD, 0x1FCF); (0x1FDD, 0x1FDF);
   (0x1FED, 0x1FEF); (0x1FFD, 0x1FFE); (0x200B, 0x200F); (0x2018, 0x2019);
   (0x2024, 0x2024); (0x2027, 0x2027); (0x202A, 0x202E); (0x2060, 0x2064);
   (0x2066, 0x206F); (0x2071, 0x2071); (0x207F, 0x207F); (0x2090, 0x209C);
   (0x20D0, 0x20F0); (0x2C7C, 0x2C7D); (0x2CEF, 0x2CF1); (0x2D6F, 0x2D6F);
   (0x2D7F, 0x2D7F); (0x2DE0, 0x2DFF); (0x2E2F, 0x2E2F); (0x3005, 0x3005);
   (0x302A, 0x302D); (0x3031, 0x3035); (0x303B, 0x303B); (0x3099, 0x309E);
   (0x30FC, 0x30FE); (0xA015, 0xA015); (0xA4F8, 0xA4FD); (0xA60C, 0xA60C);
   (0xA66F, 0xA672); (0xA674, 0xA67D); (0xA67F, 0xA67F); (0xA69C, 0xA69F);
   (0xA6F0, 0xA6F1); (0xA700, 0xA721); (0xA770, 0xA770); (0xA788, 0xA78A);
   (0xA7F2, 0xA7F4); (0xA7F8, 0xA7F9); (0xA802, 0xA802); (0xA806, 0xA806);
   (0xA80B, 0xA80B); (0xA825, 0xA826); (0xA82C, 0xA82C); (0xA8C4, 0xA8C5);
   (0xA8E0, 0xA8F1); (0xA8FF, 0xA8FF); (0xA926, 0xA92D); (0xA947, 0xA951);
   (0xA980, 0xA982); (0xA9B3, 0xA9B3); (0xA9B6, 0xA9B9); (0xA9BC, 0xA9BD);
   (0xA9CF, 0xA9CF); (0xA9E5, 0xA9E6); (0xAA29, 0xAA2E); (0xAA31, 0xAA32);
   (0xAA35, 0xAA36); (0xAA43, 0xAA43); (0xAA4C, 0xAA4C); (0xAA70, 0xAA70);
   (0xAA7C, 0xAA7C); (0xAAB0, 0xAAB0); (0xAAB2, 0xAAB4); (0xAAB7, 0xAAB8);
   (0xAABE, 0xAABF); (0xAAC1, 0xAAC1); (0xAADD, 0xAADD); (0xAAEC, 0xAAED);
   (0xAAF3, 0xAAF4); (0xAAF6, 0xAAF6); (0xAB5B, 0xAB5F); (0xAB69, 0xAB6B);
   (0xABE5, 0xABE5); (0xABE8, 0xABE8); (0xABED, 0xABED); (0xFB1E, 0xFB1E);
   (0xFBB2, 0xFBC2); (0xFE00, 0xFE0F); (0xFE13, 0xFE13); (0xFE20, 0xFE2F);
   (0xFE52, 0xFE52); (0xFE55, 0xFE55); (0xFEFF, 0xFEFF); (0xFF07, 0xFF07);
   (0xFF0E, 0xFF0E); (0xFF1A, 0xFF1A); (0xFF3E, 0xFF3E); (0xFF40, 0xFF40);
   (0xFF70, 0xFF70); (0xFF9E, 0xFF9F); (0xFFE3, 0xFFE3); (0xFFF9, 0xFFFB);
   (0x101FD, 0x101FD); (0x102E0, 0x102E0); (0x10376, 0x1037A); (0x10780, 0x10785);
   (0x10787, 0x107B0); (0x107B2, 0x107BA); (0x10A01, 0x10A03); (0x10A05, 0x10A06);
   (0x10A0C, 0x10A0F); (0x10A38, 0x10A3A); (0x10A3F, 0x10A3F); (0x10AE5, 0x10AE6);
   (0x10D24, 0x10D27); (0x10EAB, 0x10EAC); (0x10F46, 0x10F50); (0x10F82, 0x10F85);
   (0x11001, 0x11001); (0x11038, 0x11046); (0x11070, 0x11070); (0x11073, 0x11074);
   (0x1107F, 0x11081); (0x110B3, 0x110B6); (0x110B9, 0x110BA); (0x110BD, 0x110BD);
   (0x110C2, 0x110C2); (0x110CD, 0x110CD); (0x11100, 0x11102); (0x11127, 0x1112B);
   (0x1112D, 0x11134); (0x11173, 0x11173); (0x11180, 0x11181); (0x111B6, 0x111BE);
   (0x111C9, 0x111CC); (0x111CF, 0x111CF); (0x1122F, 0x11231); (0x11234, 0x11234);
   (0x11236, 0x11237); (0x1123E, 0x1123E); (0x112DF, 0x112DF); (0x112E3, 0x112EA);
   (0x11300, 0x11301); (0x1133B, 0x1133C); (0x11340, 0x11340); (0x11366, 0x1136C);
   (0x11370, 0x11374); (0x11438, 0x1143F); (0x11442, 0x11444); (0x11446, 0x11446);
   (0x1145E, 0x1145E); (0x114B3, 0x114B8); (0x114BA, 0x114BA); (0x114BF, 0x114C0);
   (0x114C2, 0x114C3); (0x115B2, 0x115B5); (0x115BC, 0x115BD); (0x115BF, 0x115C0);
   (0x115DC, 0x115DD); (0x11633, 0x1163A); (0x1163D, 0x1163D); (0x1163F, 0x11640);
   (0x116AB, 0x116AB); (0x116AD, 0x116AD); (0x116B0, 0x116B5); (0x116B7, 0x116B7);
   (0x1171D, 0x1171F); (0x11722, 0x11725); (0x11727, 0x1172B); (0x1182F, 0x11837);
   (0x11839, 0x1183A); (0x1193B, 0x1193C); (0x1193E, 0x1193E); (0x11943, 0x11943);
   (0x119D4, 0x119D7); (0x119DA, 0x119DB); (0x119E0, 0x119E0); (0x11A01, 0x11A0A);
   (0x11A33, 0x11A38); (0x11A3B, 0x11A3E); (0x11A47, 0x11A47); (0x11A51, 0x11A56);
   (0x11A59, 0x11A5B); (0x11A8A, 0x11A96); (0x11A98, 0x11A99); (0x11C30, 0x11C36);
   (0x11C38, 0x11C3D); (0x11C3F, 0x11C3F); (0x11C92, 0x11CA7); (0x11CAA, 0x11CB0);
   (0x11CB2, 0x11CB3); (0x11CB5, 0x11CB6); (0x11D31, 0x11D36); (0x11D3A, 0x11D3A);
   (0x11D3C, 0x11D3D); (0x11D3F, 0x11D45); (0x11D47, 0x11D47); (0x11D90, 0x11D91);
   (0x11D95, 0x11D95); (0x11D97, 0x11D97); (0x11EF3, 0x11EF4); (0x13430, 0x13438);
   (0x16AF0, 0x16AF4); (0x16B30, 0x16B36); (0x16B40, 0x16B43); (0x16F4F, 0x16F4F);
   (0x16F8F, 0x16F9F); (0x16FE0, 0x16FE1); (0x16FE3, 0x16FE4); (0x1AFF0, 0x1AFF3);
   (0x1AFF5, 0x1AFFB); (0x1AFFD, 0x1AFFE); (0x1BC9D, 0x1BC9E); (0x1BCA0, 0x1BCA3);
   (0x1CF00, 0x1CF2D); (0x1CF30, 0x1CF46); (0x1D167, 0x1D169); (0x1D173, 0x1D182);
   (0x1D185, 0x1D18B); (0x1D1AA, 0x1D1AD); (0x1D242, 0x1D244); (0x1DA00, 0x1DA36);
   (0x1DA3B, 0x1DA6C); (0x1DA75, 0x1DA75); (0x1DA84, 0x1DA84); (0x1DA9B, 0x1DA9F);
   (0x1DAA1, 0x1DAAF); (0x1E000, 0x1E006); (0x1E008, 0x1E018); (0x1E01B, 0x1E021);
   (0x1E023, 0x1E024); (0x1E026, 0x1E02A); (0x1E130, 0x1E13D); (0x1E2AE, 0x1E2AE);
   (0x1E2EC, 0x1E2EF); (0x1E8D0, 0x1E8D6); (0x1E944, 0x1E94B); (0x1F3FB, 0x1F3FF);
   (0xE0001, 0xE0001); (0xE0020, 0xE007F); (0xE0100, 0xE01EF)
  ].

Definition inRanges (table : list (Z * Z)) (cp : Z) : bool :=
  existsb (fun '(first, last) => (first <=? cp) && (cp <=? last)) table.

Definition isCased (cp : Z) : bool := inRanges casedTable cp.

Definition isCaseIgnorable (cp : Z) : bool := inRanges caseIgnorableTable cp.

Definition simpleLowercase (cp : Z) : Z :=
  if cp <? 0x80 then (if (0x41 <=? cp) && (cp <=? 0x5A) then cp + 32 else cp)
  else
    match find (fun '(first, last, step, _) =>
                  (first <=? cp) && (cp <=? last) && ((cp - first) mod step =? 0))
               lowercaseTable with
    | Some (_, _, _, offset) => cp + offset
    | None => cp
    end.

(** Past the case-ignorable code points of [l], a cased one comes next. *)
Fixpoint casedComesNext (l : list Z) : bool :=
  match l with
  | [] => false
  | cp :: rest => if isCaseIgnorable cp then casedComesNext rest else isCased cp
  end.

(** The condition Final_Sigma, on the code points before (nearest first)
    and after a capital sigma. *)
Definition finalSigma (before after : list Z) : bool :=
  casedComesNext before && negb (casedComesNext after).

(** The lowercase of one code point in its context: capital sigma by
    Final_Sigma, U+0130 to two code points, the simple mapping
    otherwise. *)
Definition lowerCodePoint (before : list Z) (cp : Z) (after : list Z) : list Z :=
  if cp =? 0x3A3 then [if finalSigma before after then 0x3C2 else 0x3C3]
  else if cp =? 0x130 then [0x69; 0x307]
  else [simpleLowercase cp].

Fixpoint lowerCodePoints (before cps : list Z) : list Z :=
  match cps with
  | [] => []
  | cp :: rest => lowerCodePoint before cp rest ++ lowerCodePoints (cp :: before) rest
  end.

(** [s.toLowerCase()] *)
Definition toLowerCase (s : string) : string :=
  utf8Encode (lowerCodePoints [] (utf8Decode s)).

(** [s.startsWith(p)] *)
Fixpoint startsWith (s p : string) {struct p} : bool :=
  match p, s with
  | EmptyString, _ => true
  | String _ _, EmptyString => false
  | String a p', String b s' => Ascii.eqb a b && startsWith s' p'
  end.

(** [s.includes(sub)]: [sub] occurs in [s] at some position. *)
Fixpoint includes (s sub : string) : bool :=
  startsWith s sub ||
  match s with
  | EmptyString => false
  | String _ s' => includes s' sub
  end.

(** *** Numbers *)

(** [0 < q], read off the numerator. *)
Definition positive_number (q : Q) : bool := (0 <? Qnum q)%Z.

(** *** Arrays *)

Section Arrays.
Context {A : Type}.

(** [arr.includes(x)], for an array of integers it is used on. *)
Definition Array_includes (eqbA : A -> A -> bool) (arr : list A) (x : A) : bool :=
  existsb (fun y => eqbA y x) arr.

(** [arr.reduce(f, init)] *)
Definition Array_reduce {B : Type} (f : B -> A -> B) (init : B) (arr : list A) : B :=
  fold_left f arr init.

(** One step of the stable insertion: [x] stood before every element of
    [sorted] in the input, so it moves right only past the elements the
    comparator puts strictly before it ([cmp x y > 0]). *)
Fixpoint sort_insert (cmp : A -> A -> Q) (x : A) (sorted : list A) : list A :=
  match sorted with
  | [] => [x]
  | y :: rest =>
      if positive_number (cmp x y) then y :: sort_insert cmp x rest
      else x :: sorted
  end.

(** The contents of [arr] after [arr.sort(cmp)]. *)
Fixpoint Array_sort (cmp : A -> A -> Q) (arr : list A) : list A :=
  match arr with
  | [] => []
  | x :: rest => sort_insert cmp x (Array_sort cmp rest)
  end.

End Arrays.

End JS.

(** ** Data model *)

Record MenuItem : Type := mkMenuItem {
  id : Z;
  name : string;
  category : string;
  price : Q;
  description : string;
  image : string;
  rating : Q;
  popular : option bool;   (* [popular?: boolean] *)
  prepTime : string
}.

Record Category : Type := mkCategory {
  cat_id : string;
  cat_name : string;
  cat_icon : string;
  cat_color : string
}.

(** [interface CartItem extends MenuItem { quantity: number }] *)
Record CartItem : Type := mkCartItem {
  item_of : MenuItem;
  quantity : Z
}.

Definition cart_id (c : CartItem) : Z := id (item_of c).

(** The [useState] cells of [FoodTimeApp]. *)
Record AppState : Type := mkAppState {
  items : list MenuItem;
  categories : list Category;
  cart : list CartItem;
  selectedCategory : string;
  searchTerm : string;
  sortBy : string;
  isCartOpen : bool;
  favorites : list Z
}.

Definition initialState : AppState :=
  mkAppState [] [] [] "all" "" "popular" false [].

Definition setCart (f : list CartItem -> list CartItem) (st : AppState) : AppState :=
  mkAppState (items st) (categories st) (f (cart st)) (selectedCategory st)
             (searchTerm st) (sortBy st) (isCartOpen st) (favorites st).

Definition setFavorites (f : list Z -> list Z) (st : AppState) : AppState :=
  mkAppState (items st) (categories st) (cart st) (selectedCategory st)
             (searchTerm st) (sortBy st) (isCartOpen st) (f (favorites st)).

Definition setSortBy (key : string) (st : AppState) : AppState :=
  mkAppState (items st) (categories st) (cart st) (selectedCategory st)
             (searchTerm st) key (isCartOpen st) (favorites st).

(** ** Catalog filter *)

Definition matchesCategory (selected : string) (item : MenuItem) : bool :=
  String.eqb selected "all" || String.eqb (category item) selected.

Definition matchesSearch (term : string) (item : MenuItem) : bool :=
  JS.includes (JS.toLowerCase (name item)) (JS.toLowerCase term) ||
  JS.includes (JS.toLowerCase (description item)) (JS.toLowerCase term).

Definition filterPredicate (selected term : string) (item : MenuItem) : bool :=
  matchesCategory selected item && matchesSearch term item.

Definition filteredItems (st : AppState) : list MenuItem :=
  filter (filterPredicate (selectedCategory st) (searchTerm st)) (items st).

(** ** Sort *)

(** Truthiness of the optional flag in [b.popular ? 1 : 0]. *)
Definition isPopular (item : MenuItem) : bool :=
  match popular item with
  | Some true => true
  | _ => false
  end.

Definition popularRank (item : MenuItem) : Q :=
  if isPopular item then 1%Q else 0%Q.

Section Sorting.

(** [a.localeCompare(b)]: negative, zero or positive. *)
Variable localeCompare : string -> string -> Q.

(** The comparator passed to [sort]: the [switch (sortBy)]. *)
Definition compareItems (key : string) (a b : MenuItem) : Q :=
  if String.eqb key "price-low" then (price a - price b)%Q
  else if String.eqb key "price-high" then (price b - price a)%Q
  else if String.eqb key "rating" then (rating b - rating a)%Q
  else if String.eqb key "popular" then (popularRank b - popularRank a)%Q
  else localeCompare (name a) (name b).

(** [[...filteredItems].sort(...)] *)
Definition sortedItems (st : AppState) : list MenuItem :=
  JS.Array_sort (compareItems (sortBy st)) (filteredItems st).

End Sorting.

(** A comparison the parameter can be instantiated with: code-unit order. *)
Definition codeUnitCompare (a b : string) : Q :=
  match String_as_OT.compare a b with
  | Lt => (-1)%Q
  | Eq => 0%Q
  | Gt => 1%Q
  end.

(** ** Cart manager *)

Definition addToCart (item : MenuItem) (st : AppState) : AppState :=
  setCart (fun prevCart =>
    match find (fun cartItem => cart_id cartItem =? id item) prevCart with
    | Some existingItem =>
        map (fun cartItem =>
               if cart_id cartItem =? id item
               then mkCartItem (item_of cartItem) (quantity cartItem + 1)
               else cartItem) prevCart
    | None => prevCart ++ [mkCartItem item 1]
    end) st.

Definition removeFromCart (itemId : Z) (st : AppState) : AppState :=
  setCart (fun prevCart =>
    filter (fun item => negb (cart_id item =? itemId)) prevCart) st.

Definition updateQuantity (itemId newQuantity : Z) (st : AppState) : AppState :=
  if newQuantity =? 0 then removeFromCart itemId st
  else
    setCart (fun prevCart =>
      map (fun item =>
             if cart_id item =? itemId
             then mkCartItem (item_of item) newQuantity
             else item) prevCart) st.

(** [getTotalPrice] read in exact arithmetic, on the decimals the prices
    are written as; the double the engine computes is
    [Binary64.getTotalPrice]. *)
Definition getTotalPrice (st : AppState) : Q :=
  JS.Array_reduce
    (fun total item => total + price (item_of item) * inject_Z (quantity item))%Q
    0%Q (cart st).

Definition getTotalItems (st : AppState) : Z :=
  JS.Array_reduce (fun total item => total + quantity item) 0 (cart st).

(** The cart total as the engine computes it, in IEEE-754 binary64. *)
Module Binary64.

Definition prec : Z := 53.
Definition emax : Z := 1024.

Definition ofZ (z : Z) : spec_float := binary_normalize prec emax z 0 false.

(** The double a decimal literal denotes: the quotient, rounded once. *)
Definition ofDecimal (q : Q) : spec_float :=
  SFdiv prec emax (ofZ (Qnum q)) (ofZ (Zpos (Qden q))).

Definition getTotalPrice (st : AppState) : spec_float :=
  JS.Array_reduce
    (fun total item =>
       SFadd prec emax total
             (SFmul prec emax (ofDecimal (price (item_of item)))
                    (ofZ (quantity item))))
    (ofZ 0) (cart st).

(** [x == y] on numbers *)
Definition equal (x y : spec_float) : bool := SFeqb x y.

End Binary64.

(** ** Favorites *)

Definition toggleFavorite (itemId : Z) (st : AppState) : AppState :=
  setFavorites (fun prev =>
    if JS.Array_includes Z.eqb prev itemId
    then filter (fun i => negb (i =? itemId)) prev
    else prev ++ [itemId]) st.

(** ** The derived views over a heap of arrays

    [items.filter(...)] builds a new array, [[...filteredItems]] builds
    another one, and [.sort(...)] rearranges the array it is called on and
    returns it. *)

Module Heap.

Definition ref : Type := nat.

(** The array objects, by address. *)
Definition heap (A : Type) : Type := list (list A).

Definition M (A B : Type) : Type := heap A -> B * heap A.

Definition ret {A B : Type} (b : B) : M A B := fun h => (b, h).

Definition bind {A B C : Type} (m : M A B) (k : B -> M A C) : M A C :=
  fun h => let (b, h') := m h in k b h'.

Definition contents {A : Type} (h : heap A) (r : ref) : list A := nth r h [].

Fixpoint store {A : Type} (h : heap A) (r : ref) (arr : list A) : heap A :=
  match h, r with
  | [], _ => []
  | _ :: h', O => arr :: h'
  | a :: h', S r' => a :: store h' r' arr
  end.

Definition alloc {A : Type} (arr : list A) : M A ref :=
  fun h => (List.length h, h ++ [arr]).

(** [arr.filter(p)] *)
Definition Array_filter {A : Type} (p : A -> bool) (r : ref) : M A ref :=
  fun h => alloc (filter p (contents h r)) h.

(** [[...arr]] *)
Definition spread {A : Type} (r : ref) : M A ref :=
  fun h => alloc (contents h r) h.

(** [arr.sort(cmp)]: in place, and the value is the array itself. *)
Definition Array_sort {A : Type} (cmp : A -> A -> Q) (r : ref) : M A ref :=
  fun h => (r, store h r (JS.Array_sort cmp (contents h r))).

End Heap.

Notation "x <- m ;; k" := (Heap.bind m (fun x => k))
  (at level 61, m at next level, right associativity).

(** [const filteredItems = items.filter(...)], with [items] at [itemsRef]. *)
Definition filteredItemsIn (selected term : string) (itemsRef : Heap.ref)
    : Heap.M MenuItem Heap.ref :=
  Heap.Array_filter (filterPredicate selected term) itemsRef.

(** [const sortedItems = [...filteredItems].sort(...)] *)
Definition sortedItemsIn (localeCompare : string -> string -> Q) (key : string)
    (filteredRef : Heap.ref) : Heap.M MenuItem Heap.ref :=
  copyRef <- Heap.spread filteredRef ;;
  Heap.Array_sort (compareItems localeCompare key) copyRef.

(** One render: the references of [filteredItems] and [sortedItems]. *)
Definition renderViews (localeCompare : string -> string -> Q)
    (st : AppState) (itemsRef : Heap.ref) : Heap.M MenuItem (Heap.ref * Heap.ref) :=
  filteredRef <- filteredItemsIn (selectedCategory st) (searchTerm st) itemsRef ;;
  sortedRef <- sortedItemsIn localeCompare (sortBy st) filteredRef ;;
  Heap.ret (filteredRef, sortedRef).

(** ** The wording of the specification *)

(** "case-insensitive": two units are the same letter when they are equal
    or differ by the case of one of the letters A to Z (any wider reading
    of the word relates these pairs too), and two strings are equal
    ignoring case when they are so unit by unit. *)
Definition sameLetter (a b : ascii) : Prop :=
  a = b \/
  (65 <= nat_of_ascii a <= 90 /\ nat_of_ascii b = nat_of_ascii a + 32)%nat \/
  (65 <= nat_of_ascii b <= 90 /\ nat_of_ascii a = nat_of_ascii b + 32)%nat.

Inductive equalIgnoringCase : string -> string -> Prop :=
| equalIgnoringCase_nil : equalIgnoringCase EmptyString EmptyString
| equalIgnoringCase_cons : forall a b s t,
    sameLetter a b -> equalIgnoringCase s t ->
    equalIgnoringCase (String a s) (String b t).

(** "search text is a case-insensitive substring of" [s]: some stretch of
    [s] equals the text ignoring case. *)
Definition caseInsensitiveSubstring (text s : string) : Prop :=
  exists before mid after : string,
    s = (before ++ mid ++ after)%string /\
    equalIgnoringCase mid text.

(** The inclusion contract of the catalog filter. *)
Definition qualifies (selected text : string) (item : MenuItem) : Prop :=
  (selected = "all"%string \/ category item = selected) /\
  (caseInsensitiveSubstring text (name item) \/
   caseInsensitiveSubstring text (description item)).

(** [sub] is a substring of [s]. *)
Definition occursIn (sub s : string) : Prop :=
  exists before after : string, s = (before ++ sub ++ after)%string.

(** The inclusion test as the component makes it: on the lowercase of the
    whole strings. *)
Definition passesFilter (selected text : string) (item : MenuItem) : Prop :=
  (selected = "all"%string \/ category item = selected) /\
  (occursIn (JS.toLowerCase text) (JS.toLowerCase (name item)) \/
   occursIn (JS.toLowerCase text) (JS.toLowerCase (description item))).

(** A comparison function is consistent when "not after" is a total
    preorder; the language standard asks it of [localeCompare]. *)
Definition consistentComparison {A : Type} (cmp : A -> A -> Q) : Prop :=
  (forall a b, (0 < cmp a b)%Q -> (cmp b a <= 0)%Q) /\
  (forall a b c, (cmp a b <= 0)%Q -> (cmp b c <= 0)%Q -> (cmp a c <= 0)%Q).

(** "sum over all lines of" a rational, resp. integer, quantity. *)
Fixpoint sumQ (l : list Q) : Q :=
  match l with
  | [] => 0%Q
  | x :: rest => (x + sumQ rest)%Q
  end.

Fixpoint sumZ (l : list Z) : Z :=
  match l with
  | [] => 0
  | x :: rest => x + sumZ rest
  end.

Definition linePrice (c : CartItem) : Q :=
  (price (item_of c) * inject_Z (quantity c))%Q.

(** [item.price * item.quantity] as a double. *)
Definition linePrice64 (c : CartItem) : spec_float :=
  SFmul Binary64.prec Binary64.emax
        (Binary64.ofDecimal (price (item_of c))) (Binary64.ofZ (quantity c)).

(** The doubles of a list added up one after the other, from 0; the list
    is given last element first. *)
Fixpoint accumulated64 (reversed : list spec_float) : spec_float :=
  match reversed with
  | [] => Binary64.ofZ 0
  | x :: earlier => SFadd Binary64.prec Binary64.emax (accumulated64 earlier) x
  end.

(** "the line for itemId" *)
Definition lineFor (itemId : Z) (c : list CartItem) : option CartItem :=
  find (fun line => cart_id line =? itemId) c.

(** "a cart in which the line for itemId exists and has quantity exactly n" *)
Definition lineHasQuantity (itemId n : Z) (c : list CartItem) : Prop :=
  exists line, lineFor itemId c = Some line /\ quantity line = n.

(** "at most one CartLine per distinct item id" *)
Definition distinctLines (c : list CartItem) : Prop := NoDup (map cart_id c).

(** [l] is a subsequence of [m]. *)
Inductive Subsequence {A : Type} : list A -> list A -> Prop :=
| Subsequence_nil : Subsequence [] []
| Subsequence_skip : forall x l m, Subsequence l m -> Subsequence l (x :: m)
| Subsequence_keep : forall x l m, Subsequence l m -> Subsequence (x :: l) (x :: m).

(** ** The rest of the component: setters, helpers, controls *)

Definition setItems (l : list MenuItem) (st : AppState) : AppState :=
  mkAppState l (categories st) (cart st) (selectedCategory st)
             (searchTerm st) (sortBy st) (isCartOpen st) (favorites st).

Definition setCategories (l : list Category) (st : AppState) : AppState :=
  mkAppState (items st) l (cart st) (selectedCategory st)
             (searchTerm st) (sortBy st) (isCartOpen st) (favorites st).

Definition setSelectedCategory (c : string) (st : AppState) : AppState :=
  mkAppState (items st) (categories st) (cart st) c
             (searchTerm st) (sortBy st) (isCartOpen st) (favorites st).

Definition setSearchTerm (text : string) (st : AppState) : AppState :=
  mkAppState (items st) (categories st) (cart st) (selectedCategory st)
             text (sortBy st) (isCartOpen st) (favorites st).

Definition setIsCartOpen (open : bool) (st : AppState) : AppState :=
  mkAppState (items st) (categories st) (cart st) (selectedCategory st)
             (searchTerm st) (sortBy st) open (favorites st).

(** The contents of [../data/menu.json], which the component imports. *)
Record MenuData : Type := mkMenuData {
  md_items : list MenuItem;
  md_categories : list Category
}.

(** The [useEffect] that runs once after the first render. *)
Definition mount (menuData : MenuData) (st : AppState) : AppState :=
  setCategories (md_categories menuData) (setItems (md_items menuData) st).

Definition defaultCategoryColor : string := "from-gray-400 to-gray-500".

(** [category?.color || "from-gray-400 to-gray-500"]: a missing category
    and an empty color both give the default. *)
Definition getCategoryColor (categoryId : string) (st : AppState) : string :=
  match find (fun cat => String.eqb (cat_id cat) categoryId) (categories st) with
  | Some category =>
      if String.eqb (cat_color category) "" then defaultCategoryColor
      else cat_color category
  | None => defaultCategoryColor
  end.

(** What the page shows or hides. *)

(** [getTotalItems() > 0 && <Badge>] in the header *)
Definition showsHeaderBadge (st : AppState) : bool := 0 <? getTotalItems st.

(** [cart.length > 0 && ...]: the floating cart button *)
Definition showsFloatingButton (st : AppState) : bool :=
  (0 <? List.length (cart st))%nat.

(** [sortedItems.length === 0 && ...]: "No items found" *)
Definition showsNoItemsFound (localeCompare : string -> string -> Q)
    (st : AppState) : bool :=
  (List.length (sortedItems localeCompare st) =? 0)%nat.

(** [favorites.includes(item.id)]: the heart of a card is filled *)
Definition heartFilled (item : MenuItem) (st : AppState) : bool :=
  JS.Array_includes Z.eqb (favorites st) (id item).

(** The events of the page, one per control with a handler. *)
Inductive Event : Type :=
| SearchChange (text : string)        (* the search box *)
| SortChange (key : string)           (* the sort menu *)
| AllItemsClick                       (* the "All Items" button *)
| CategoryClick (category : Category) (* a category button *)
| CartOpenChange (open : bool)        (* the cart sheet *)
| FloatingCartClick                   (* the floating cart button *)
| AddClick (item : MenuItem)          (* "Add to Cart" on a card *)
| HeartClick (item : MenuItem)        (* the heart on a card *)
| MinusClick (line : CartItem)        (* minus on a cart row *)
| PlusClick (line : CartItem)         (* plus on a cart row *)
| RemoveClick (line : CartItem).      (* the cross on a cart row *)

(** The handler each control is wired to. *)
Definition handle (e : Event) (st : AppState) : AppState :=
  match e with
  | SearchChange text => setSearchTerm text st
  | SortChange key => setSortBy key st
  | AllItemsClick => setSelectedCategory "all" st
  | CategoryClick category => setSelectedCategory (cat_id category) st
  | CartOpenChange open => setIsCartOpen open st
  | FloatingCartClick => setIsCartOpen true st
  | AddClick item => addToCart item st
  | HeartClick item => toggleFavorite (id item) st
  | MinusClick line => updateQuantity (cart_id line) (quantity line - 1) st
  | PlusClick line => updateQuantity (cart_id line) (quantity line + 1) st
  | RemoveClick line => removeFromCart (cart_id line) st
  end.

Definition sortOptions : list string :=
  ["popular"; "name"; "price-low"; "price-high"; "rating"]%string.

(** The control that raises [e] is on the page rendered from [st]: cards
    are made from [sortedItems], cart rows from [cart], category buttons
    from [categories], and the sort menu has five entries. *)
Definition offered (localeCompare : string -> string -> Q)
    (st : AppState) (e : Event) : Prop :=
  match e with
  | SearchChange _ | AllItemsClick | CartOpenChange _ => True
  | SortChange key => In key sortOptions
  | CategoryClick category => In category (categories st)
  | FloatingCartClick => showsFloatingButton st = true
  | AddClick item | HeartClick item => In item (sortedItems localeCompare st)
  | MinusClick line | PlusClick line | RemoveClick line => In line (cart st)
  end.

(** The states of a session: the mounted page, then one offered event
    after another. *)
Inductive reachable (localeCompare : string -> string -> Q)
    (menuData : MenuData) : AppState -> Prop :=
| reachable_mount : reachable localeCompare menuData (mount menuData initialState)
| reachable_step : forall st e,
    reachable localeCompare menuData st ->
    offered localeCompare st e ->
    reachable localeCompare menuData (handle e st).

(** A trace of events, run from a state. *)
Definition run (events : list Event) (st : AppState) : AppState :=
  fold_left (fun s e => handle e s) events st.

(** What every state of a session satisfies. *)
Record sessionInvariant (menuData : MenuData) (st : AppState) : Prop :=
  mkSessionInvariant {
  inv_items : items st = md_items menuData;
  inv_categories : categories st = md_categories menuData;
  inv_distinct : distinctLines (cart st);
  inv_positive : Forall (fun line => 1 <= quantity line) (cart st);
  inv_catalog : Forall (fun line => In (item_of line) (md_items menuData)) (cart st);
  inv_favorites : NoDup (favorites st);
  inv_favorites_catalog :
    Forall (fun i => In i (map id (md_items menuData))) (favorites st);
  inv_sortBy : In (sortBy st) sortOptions;
  inv_category :
    selectedCategory st = "all"%string \/
    In (selectedCategory st) (map cat_id (md_categories menuData))
}.

(** Decidable equality of catalog records, for counting occurrences. *)
Definition Q_eq_dec (x y : Q) : {x = y} + {x <> y}.
Proof. decide equality; [apply Pos.eq_dec | apply Z.eq_dec]. Defined.

Definition MenuItem_eq_dec (x y : MenuItem) : {x = y} + {x <> y}.
Proof.
  decide equality;
    try apply string_dec; try apply Q_eq_dec; try apply Z.eq_dec.
  decide equality. apply bool_dec.
Defined.

(** ** Sample data *)

Module Sample.

Definition margherita : MenuItem :=
  mkMenuItem 1 "Margherita Pizza" "pizza" 8.99%Q "Classic tomato and mozzarella"
             "/pizza.jpg" 4.5%Q (Some true) "15-20 min".

Definition burger : MenuItem :=
  mkMenuItem 2 "Cheese Burger" "burgers" 12%Q "Beef patty with cheddar"
             "/burger.jpg" 4.2%Q None "10-15 min".

Definition salad : MenuItem :=
  mkMenuItem 3 "Caesar Salad" "salads" 5%Q "Romaine, croutons, parmesan"
             "/salad.jpg" 4.8%Q (Some false) "5-10 min".

Definition tiramisu : MenuItem :=
  mkMenuItem 4 "Tiramisu" "desserts" 8%Q "Served after the pizza"
             "/tiramisu.jpg" 4.9%Q (Some true) "5 min".

Definition catalog : list MenuItem := [salad; burger; tiramisu; margherita].

Definition session (c : list CartItem) : AppState :=
  mkAppState catalog [] c "all" "" "popular" false [].

Definition browsing (selected term key : string) : AppState :=
  mkAppState catalog [] [] selected term key false [].

End Sample.

(** Inputs at the edges of the string and number models. *)
Module Corner.

(** A name with a capital sigma between two letters. *)
Definition sigma : MenuItem :=
  mkMenuItem 7 "ΑΣΑ" "greek" 6.5%Q "Greek salad" "/sigma.jpg" 4%Q None "10 min".

Definition sigmaSearch : AppState :=
  mkAppState [sigma] [] [] "all" "ΑΣ" "popular" false [].

Definition poppers : MenuItem :=
  mkMenuItem 8 "Jalapeño Poppers" "starters" 9.95%Q "Crisp and hot"
             "/poppers.jpg" 4.1%Q None "10 min".

Definition threePoppers : AppState :=
  mkAppState [poppers] [] [mkCartItem poppers 3] "all" "" "popular" false [].

Definition priced (i : Z) (p : Q) : MenuItem :=
  mkMenuItem i "Side" "sides" p "" "" 4%Q None "5 min".

Definition tenths : AppState :=
  mkAppState [] []
    [mkCartItem (priced 1 0.1) 1; mkCartItem (priced 2 0.2) 1;
     mkCartItem (priced 3 0.3) 1] "all" "" "popular" false [].

Definition tenthsReversed : AppState :=
  mkAppState [] []
    [mkCartItem (priced 3 0.3) 1; mkCartItem (priced 2 0.2) 1;
     mkCartItem (priced 1 0.1) 1] "all" "" "popular" false [].

End Corner.

Module Demo.

Definition pizzaCategory : Category :=
  mkCategory "pizza" "Pizza" "P" "from-red-400 to-orange-500".

Definition saladCategory : Category :=
  mkCategory "salads" "Salads" "S" "".

Definition menuData : MenuData :=
  mkMenuData Sample.catalog [pizzaCategory; saladCategory].

Definition mounted : AppState := mount menuData initialState.

(** Two Margheritas and a burger in, the burger out again, a salad liked. *)
Definition clicks : list Event :=
  [AddClick Sample.margherita; AddClick Sample.margherita;
   AddClick Sample.burger; MinusClick (mkCartItem Sample.burger 1);
   HeartClick Sample.salad].

Definition session : AppState := run clicks mounted.

End Demo.

(** * Properties *)

(** ** Strings *)

Local Open Scope string_scope.

Lemma startsWith_spec (s p : string) :
  JS.startsWith s p = true <-> exists after, s = p ++ after.
Proof.
  revert s. induction p as [|a p IH]; intros s; simpl.
  - split; [intros _; now exists s | reflexivity].
  - destruct s as [|b s].
    + split; [discriminate | intros [after H]; discriminate].
    + rewrite andb_true_iff, Ascii.eqb_eq, IH. split.
      * intros [-> [after ->]]. now exists after.
      * intros [after H]. injection H as -> ->. split; [reflexivity | now exists after].
Qed.

Lemma includes_spec (s sub : string) :
  JS.includes s sub = true <-> exists before after, s = before ++ sub ++ after.
Proof.
  induction s as [|c s IH].
  - simpl. rewrite orb_false_r, startsWith_spec. split.
    + intros [after H]. now exists "", after.
    + intros [before [after H]]. destruct before; [now exists after | discriminate].
  - cbn [JS.includes]. rewrite orb_true_iff, startsWith_spec, IH. split.
    + intros [[after H] | [before [after H]]].
      * now exists "", after.
      * exists (String c before), after. simpl. now rewrite H.
    + intros [before [after H]]. destruct before as [|b before].
      * left. now exists after.
      * right. simpl in H. injection H as _ H. now exists before, after.
Qed.

Lemma asciiLowerCase_app (a b : string) :
  JS.asciiLowerCase (a ++ b) = JS.asciiLowerCase a ++ JS.asciiLowerCase b.
Proof. induction a as [|c a IH]; simpl; [reflexivity | now rewrite IH]. Qed.

Lemma asciiLowerCase_app_inv (s a b : string) :
  JS.asciiLowerCase s = a ++ b ->
  exists s1 s2,
    s = s1 ++ s2 /\ JS.asciiLowerCase s1 = a /\ JS.asciiLowerCase s2 = b.
Proof.
  revert s. induction a as [|c a IH]; intros s H.
  - now exists "", s.
  - destruct s as [|d s]; [discriminate|].
    simpl in H. injection H as Hc H.
    destruct (IH s H) as [s1 [s2 [-> [H1 H2]]]].
    exists (String d s1), s2. simpl. now rewrite Hc, H1.
Qed.

Lemma nat_of_ascii_inj (a b : ascii) : nat_of_ascii a = nat_of_ascii b -> a = b.
Proof.
  intros H. rewrite <- (ascii_nat_embedding a), <- (ascii_nat_embedding b).
  now rewrite H.
Qed.

Lemma nat_of_lowerUnit (c : ascii) :
  nat_of_ascii (JS.lowerUnit c) =
  if JS.isUpperUnit c then (nat_of_ascii c + 32)%nat else nat_of_ascii c.
Proof.
  unfold JS.lowerUnit. destruct (JS.isUpperUnit c) eqn:Hc; [|reflexivity].
  apply nat_ascii_embedding.
  unfold JS.isUpperUnit in Hc. apply andb_true_iff in Hc as [_ Hc].
  apply Nat.leb_le in Hc. lia.
Qed.

Lemma isUpperUnit_spec (c : ascii) :
  JS.isUpperUnit c = true <-> (65 <= nat_of_ascii c <= 90)%nat.
Proof.
  unfold JS.isUpperUnit. now rewrite andb_true_iff, !Nat.leb_le.
Qed.

(** The unit-wise lowercase identifies exactly the units that are the same
    letter. *)
Lemma lowerUnit_sameLetter (a b : ascii) :
  JS.lowerUnit a = JS.lowerUnit b <-> sameLetter a b.
Proof.
  unfold sameLetter. split.
  - intros H. apply (f_equal nat_of_ascii) in H.
    rewrite !nat_of_lowerUnit in H.
    destruct (JS.isUpperUnit a) eqn:Ha, (JS.isUpperUnit b) eqn:Hb.
    + left. apply nat_of_ascii_inj. lia.
    + right. left. apply isUpperUnit_spec in Ha. lia.
    + right. right. apply isUpperUnit_spec in Hb. lia.
    + left. now apply nat_of_ascii_inj.
  - intros [->|[[Ha Hb]|[Hb Ha]]]; [reflexivity | |];
      apply nat_of_ascii_inj; rewrite !nat_of_lowerUnit.
    + rewrite (proj2 (isUpperUnit_spec a) Ha).
      destruct (JS.isUpperUnit b) eqn:Hub; [|lia].
      apply isUpperUnit_spec in Hub. lia.
    + rewrite (proj2 (isUpperUnit_spec b) Hb).
      destruct (JS.isUpperUnit a) eqn:Hua; [|lia].
      apply isUpperUnit_spec in Hua. lia.
Qed.

Lemma asciiLowerCase_equalIgnoringCase (s t : string) :
  JS.asciiLowerCase s = JS.asciiLowerCase t <-> equalIgnoringCase s t.
Proof.
  split.
  - revert t. induction s as [|a s IH]; intros [|b t] H; try discriminate.
    + constructor.
    + simpl in H. injection H as Hab H.
      constructor; [now apply lowerUnit_sameLetter | now apply IH].
  - induction 1 as [|a b s t Hab _ IH]; [reflexivity|].
    simpl. now rewrite (proj2 (lowerUnit_sameLetter a b) Hab), IH.
Qed.

Lemma equalIgnoringCase_refl (s : string) : equalIgnoringCase s s.
Proof. now apply asciiLowerCase_equalIgnoringCase. Qed.

(** On the units below 128 the conversion of the standard is the
    unit-wise one. *)
Lemma byteOf_nat (c : ascii) : JS.byteOf c = Z.of_nat (nat_of_ascii c).
Proof. unfold JS.byteOf, nat_of_ascii. now rewrite N_nat_Z. Qed.

Lemma unitOf_nat (n : nat) : JS.unitOf (Z.of_nat n) = ascii_of_nat n.
Proof.
  unfold JS.unitOf, ascii_of_nat. f_equal.
  now rewrite <- nat_N_Z, N2Z.id.
Qed.

Lemma utf8Decode_ascii (c : ascii) (s : string) :
  (nat_of_ascii c < 128)%nat ->
  JS.utf8Decode (String c s) = JS.byteOf c :: JS.utf8Decode s.
Proof.
  intros Hc. cbn [JS.utf8Decode]. cbv zeta.
  rewrite (proj2 (Z.ltb_lt (JS.byteOf c) 128)); [reflexivity|].
  rewrite byteOf_nat. lia.
Qed.

Lemma lowerCodePoint_ascii (before after : list Z) (n : nat) :
  (n < 128)%nat ->
  JS.lowerCodePoint before (Z.of_nat n) after =
  [if ((65 <=? n) && (n <=? 90))%nat then Z.of_nat (n + 32) else Z.of_nat n].
Proof.
  intros Hn. unfold JS.lowerCodePoint, JS.simpleLowercase.
  rewrite (proj2 (Z.eqb_neq _ _)), (proj2 (Z.eqb_neq _ _)) by lia.
  rewrite (proj2 (Z.ltb_lt _ _)) by lia.
  destruct ((65 <=? n) && (n <=? 90))%nat eqn:Hu.
  - apply andb_true_iff in Hu as [H1 H2]. apply Nat.leb_le in H1, H2.
    rewrite (proj2 (Z.leb_le _ _)), (proj2 (Z.leb_le _ _)) by lia.
    simpl. f_equal. lia.
  - destruct ((65 <=? Z.of_nat n) && (Z.of_nat n <=? 90))%Z eqn:Hz; [|reflexivity].
    apply andb_true_iff in Hz as [H1 H2]. apply Z.leb_le in H1, H2.
    apply andb_false_iff in Hu as [Hu|Hu]; apply Nat.leb_gt in Hu; lia.
Qed.

Lemma utf8Encode_ascii (n : nat) (rest : list Z) :
  (n < 128)%nat ->
  JS.utf8Encode (Z.of_nat n :: rest) = String (ascii_of_nat n) (JS.utf8Encode rest).
Proof.
  intros Hn. cbn [JS.utf8Encode]. unfold JS.utf8EncodeOne.
  rewrite (proj2 (Z.ltb_lt _ _)) by lia.
  cbn [JS.stringOfBytes append]. now rewrite unitOf_nat.
Qed.

Lemma lowerCodePoints_ascii (s : string) (before : list Z) :
  JS.isAscii s = true ->
  JS.utf8Encode (JS.lowerCodePoints before (JS.utf8Decode s)) = JS.asciiLowerCase s.
Proof.
  revert before. induction s as [|c s IH]; intros before Hs; [reflexivity|].
  cbn [JS.isAscii] in Hs. apply andb_true_iff in Hs as [Hc Hs].
  apply Nat.ltb_lt in Hc.
  rewrite utf8Decode_ascii by exact Hc. cbn [JS.lowerCodePoints].
  rewrite byteOf_nat, lowerCodePoint_ascii by exact Hc.
  cbn [app JS.asciiLowerCase]. unfold JS.lowerUnit, JS.isUpperUnit.
  destruct ((65 <=? nat_of_ascii c) && (nat_of_ascii c <=? 90))%nat eqn:Hu.
  - apply andb_true_iff in Hu as [_ Hu]. apply Nat.leb_le in Hu.
    rewrite utf8Encode_ascii by lia. now rewrite IH.
  - rewrite utf8Encode_ascii by exact Hc.
    now rewrite IH, ascii_nat_embedding.
Qed.

Lemma toLowerCase_ascii (s : string) :
  JS.isAscii s = true -> JS.toLowerCase s = JS.asciiLowerCase s.
Proof. apply lowerCodePoints_ascii. Qed.

Lemma includes_occursIn (s sub : string) :
  JS.includes s sub = true <-> occursIn sub s.
Proof. apply includes_spec. Qed.

(** For ASCII strings, what the component tests is the case-insensitive
    substring relation. *)
Lemma includes_caseInsensitive (text s : string) :
  JS.isAscii text = true -> JS.isAscii s = true ->
  (JS.includes (JS.toLowerCase s) (JS.toLowerCase text) = true <->
   caseInsensitiveSubstring text s).
Proof.
  intros Htext Hs. rewrite !toLowerCase_ascii by assumption.
  rewrite includes_spec. unfold caseInsensitiveSubstring. split.
  - intros [before [after H]].
    apply asciiLowerCase_app_inv in H as [s1 [s23 [-> [_ H]]]].
    apply asciiLowerCase_app_inv in H as [s2 [s3 [-> [H _]]]].
    exists s1, s2, s3. split; [reflexivity|].
    now apply asciiLowerCase_equalIgnoringCase.
  - intros [before [mid [after [-> H]]]].
    apply asciiLowerCase_equalIgnoringCase in H.
    exists (JS.asciiLowerCase before), (JS.asciiLowerCase after).
    now rewrite !asciiLowerCase_app, H.
Qed.

Lemma matchesSearch_empty (item : MenuItem) : matchesSearch "" item = true.
Proof.
  unfold matchesSearch.
  change (JS.toLowerCase "") with "".
  now destruct (JS.toLowerCase (name item)).
Qed.

Lemma filterPredicate_passes (selected term : string) (item : MenuItem) :
  filterPredicate selected term item = true <-> passesFilter selected term item.
Proof.
  unfold filterPredicate, matchesCategory, matchesSearch, passesFilter.
  now rewrite andb_true_iff, !orb_true_iff, !String.eqb_eq, !includes_occursIn.
Qed.

Lemma filterPredicate_qualifies (selected term : string) (item : MenuItem) :
  JS.isAscii term = true ->
  JS.isAscii (name item) = true -> JS.isAscii (description item) = true ->
  (filterPredicate selected term item = true <-> qualifies selected term item).
Proof.
  intros Ht Hn Hd.
  unfold filterPredicate, matchesCategory, matchesSearch, qualifies.
  rewrite andb_true_iff, !orb_true_iff, !String.eqb_eq.
  now rewrite !includes_caseInsensitive by assumption.
Qed.

Local Close Scope string_scope.

(** ** Lists *)

Lemma Subsequence_filter {A : Type} (p : A -> bool) (l : list A) :
  Subsequence (filter p l) l.
Proof.
  induction l as [|x l IH]; simpl.
  - constructor.
  - destruct (p x); now constructor.
Qed.

Lemma count_occ_filter {A : Type} (dec : forall x y : A, {x = y} + {x <> y})
    (p : A -> bool) (l : list A) (x : A) :
  count_occ dec (filter p l) x = if p x then count_occ dec l x else 0%nat.
Proof.
  induction l as [|y l IH]; simpl.
  - now destruct (p x).
  - destruct (dec y x) as [->|Hne].
    + destruct (p x) eqn:Hp; simpl; [|exact IH].
      destruct (dec x x); [now rewrite IH | contradiction].
    + destruct (p y); simpl; [|exact IH].
      destruct (dec y x); [contradiction | exact IH].
Qed.

(** ** The heap of arrays *)

Lemma contents_old {A : Type} (h k : Heap.heap A) (r : Heap.ref) :
  (r < List.length h)%nat -> Heap.contents (h ++ k) r = Heap.contents h r.
Proof. intros H. unfold Heap.contents. now apply app_nth1. Qed.

Lemma contents_new {A : Type} (h : Heap.heap A) (arr : list A) :
  Heap.contents (h ++ [arr]) (List.length h) = arr.
Proof. unfold Heap.contents. now rewrite app_nth2, Nat.sub_diag by lia. Qed.

Lemma store_last {A : Type} (h : Heap.heap A) (old arr : list A) :
  Heap.store (h ++ [old]) (List.length h) arr = h ++ [arr].
Proof. induction h as [|a h IH]; simpl; [reflexivity | now rewrite IH]. Qed.

Lemma filteredItemsIn_run (selected term : string) (itemsRef : Heap.ref)
    (h : Heap.heap MenuItem) :
  filteredItemsIn selected term itemsRef h =
  (List.length h,
   h ++ [filter (filterPredicate selected term) (Heap.contents h itemsRef)]).
Proof. reflexivity. Qed.

Lemma sortedItemsIn_run (localeCompare : string -> string -> Q) (key : string)
    (r : Heap.ref) (h : Heap.heap MenuItem) :
  sortedItemsIn localeCompare key r h =
  (List.length h,
   h ++ [JS.Array_sort (compareItems localeCompare key) (Heap.contents h r)]).
Proof.
  unfold sortedItemsIn, Heap.bind, Heap.spread, Heap.Array_sort, Heap.alloc.
  now rewrite contents_new, store_last.
Qed.

(** One render allocates two arrays, the filtered one and its sorted copy,
    and they hold the values of the pure definitions. *)
Lemma renderViews_run (localeCompare : string -> string -> Q) (st : AppState)
    (itemsRef : Heap.ref) (h : Heap.heap MenuItem) :
  Heap.contents h itemsRef = items st ->
  renderViews localeCompare st itemsRef h =
  ((List.length h, S (List.length h)),
   h ++ [filteredItems st] ++ [sortedItems localeCompare st]).
Proof.
  intros Hitems. unfold renderViews, Heap.bind, Heap.ret.
  rewrite filteredItemsIn_run, sortedItemsIn_run, contents_new, Hitems.
  rewrite length_app, Nat.add_1_r, <- app_assoc. reflexivity.
Qed.

(** ** Catalog filter *)

(** C3, as the code has it: the filter keeps exactly the items that pass
    the category test and whose lowercase name or lowercase description
    contains the lowercase search text, each string converted as a whole by
    [toLowerCase]; when the text, the name and the description are ASCII
    this is the case-insensitive substring test; an empty search text
    leaves the category test alone; the result is a subsequence of the
    item list in which every kept item occurs as often as in the list
    (once, when the list has no repeated entry); and the item list is the
    same array, with the same contents, after the call as before. *)
Theorem filteredItems_contract (selected text : string)
    (h : Heap.heap MenuItem) (itemsRef : Heap.ref) :
  (itemsRef < List.length h)%nat ->
  let input := Heap.contents h itemsRef in
  let result := filteredItemsIn selected text itemsRef h in
  let out := Heap.contents (snd result) (fst result) in
  (forall item, In item out <-> In item input /\ passesFilter selected text item) /\
  (JS.isAscii text = true ->
   forall item,
     JS.isAscii (name item) = true -> JS.isAscii (description item) = true ->
     (In item out <-> In item input /\ qualifies selected text item)) /\
  (text = ""%string ->
   forall item,
     In item out <->
     In item input /\ (selected = "all"%string \/ category item = selected)) /\
  Subsequence out input /\
  (forall item,
      passesFilter selected text item ->
      count_occ MenuItem_eq_dec out item = count_occ MenuItem_eq_dec input item) /\
  (NoDup input ->
   forall item,
     In item input -> passesFilter selected text item ->
     count_occ MenuItem_eq_dec out item = 1%nat) /\
  Heap.contents (snd result) itemsRef = input.
Proof.
  intros Hvalid input result out.
  assert (Hout : out = filter (filterPredicate selected text) input).
  { unfold out, result. rewrite filteredItemsIn_run. cbn [fst snd].
    now rewrite contents_new. }
  assert (Hmem : forall item,
             In item out <-> In item input /\ passesFilter selected text item).
  { intros item. now rewrite Hout, filter_In, filterPredicate_passes. }
  assert (Hcount : forall item,
             passesFilter selected text item ->
             count_occ MenuItem_eq_dec out item =
             count_occ MenuItem_eq_dec input item).
  { intros item Hq. rewrite Hout, count_occ_filter.
    apply filterPredicate_passes in Hq. now rewrite Hq. }
  split; [exact Hmem|].
  split; [|split; [|split; [|split; [exact Hcount|split]]]].
  - intros Htext item Hname Hdescription.
    now rewrite Hout, filter_In, filterPredicate_qualifies.
  - intros Htext item. rewrite Hout, filter_In, Htext.
    unfold filterPredicate. rewrite matchesSearch_empty, andb_true_r.
    unfold matchesCategory. now rewrite orb_true_iff, !String.eqb_eq.
  - rewrite Hout. apply Subsequence_filter.
  - intros Hnodup item Hin Hq. rewrite Hcount by exact Hq.
    now apply NoDup_count_occ'.
  - unfold result. rewrite filteredItemsIn_run. cbn [snd].
    now apply contents_old.
Qed.

Lemma filteredItems_contract_witness :
  Heap.contents
    (snd (filteredItemsIn "all" "PIZZA" 0%nat [Sample.catalog]))
    (fst (filteredItemsIn "all" "PIZZA" 0%nat [Sample.catalog]))
  = [Sample.tiramisu; Sample.margherita] /\
  Heap.contents
    (snd (filteredItemsIn "all" "PIZZA" 0%nat [Sample.catalog])) 0%nat
  = Sample.catalog /\
  Subsequence [Sample.tiramisu; Sample.margherita] Sample.catalog /\
  (In Sample.tiramisu
      (Heap.contents (snd (filteredItemsIn "all" "PIZZA" 0%nat [Sample.catalog]))
                     (fst (filteredItemsIn "all" "PIZZA" 0%nat [Sample.catalog])))
   <-> In Sample.tiramisu Sample.catalog /\ qualifies "all" "PIZZA" Sample.tiramisu).
Proof.
  pose proof (filteredItems_contract "all" "PIZZA" [Sample.catalog] 0%nat
                ltac:(simpl; lia)) as H.
  cbv zeta in H. split; [now vm_compute|]. split; [apply H|]. split.
  - exact (proj1 (proj2 (proj2 (proj2 H)))).
  - exact (proj1 (proj2 H) eq_refl Sample.tiramisu eq_refl eq_refl).
Defined.

(** Outside ASCII the search follows the case tables: "JALAPEÑO" finds
    "Jalapeño Poppers". *)
Lemma filter_finds_accented_letter :
  filteredItems (setSearchTerm "JALAPEÑO" Corner.threePoppers) = [Corner.poppers].
Proof. now vm_compute. Qed.

(** C3, as stated, fails: the search text "ΑΣ" stands at the start of the
    name "ΑΣΑ", and the item is not kept, because the sigma of the text is
    the last letter of a word and the sigma of the name is not. *)
Lemma filter_misses_final_sigma :
  In Corner.sigma (items Corner.sigmaSearch) /\
  qualifies (selectedCategory Corner.sigmaSearch) (searchTerm Corner.sigmaSearch)
            Corner.sigma /\
  ~ In Corner.sigma (filteredItems Corner.sigmaSearch).
Proof.
  split; [now left|]. split.
  - split; [now left|]. left.
    exists ""%string, "ΑΣ"%string, "Α"%string.
    split; [reflexivity | apply equalIgnoringCase_refl].
  - vm_compute. tauto.
Qed.

(** ** Sort *)

Lemma positive_number_spec (q : Q) : JS.positive_number q = true <-> (0 < q)%Q.
Proof.
  unfold JS.positive_number, Qlt. simpl. rewrite Z.ltb_lt. lia.
Qed.

Lemma positive_number_false (q : Q) : JS.positive_number q = false <-> (q <= 0)%Q.
Proof.
  unfold JS.positive_number, Qle. simpl. rewrite Z.ltb_ge. lia.
Qed.

Lemma positive_number_diff (p q : Q) :
  JS.positive_number (p - q) = true <-> (q < p)%Q.
Proof. rewrite positive_number_spec. symmetry. apply Qlt_minus_iff. Qed.

Lemma positive_number_diff_false (p q : Q) :
  JS.positive_number (p - q) = false <-> (p <= q)%Q.
Proof.
  rewrite <- not_true_iff_false, positive_number_diff. split.
  - apply Qnot_lt_le.
  - intros Hle Hlt. exact (Qlt_irrefl _ (Qlt_le_trans _ _ _ Hlt Hle)).
Qed.

Section SortFacts.

Context {A : Type}.
Variable cmp : A -> A -> Q.

Lemma sort_insert_perm (x : A) (l : list A) :
  Permutation (JS.sort_insert cmp x l) (x :: l).
Proof.
  induction l as [|y l IH]; simpl.
  - apply Permutation_refl.
  - destruct (JS.positive_number (cmp x y)).
    + apply perm_trans with (y :: x :: l); [now apply perm_skip | apply perm_swap].
    + apply Permutation_refl.
Qed.

Lemma Array_sort_perm (l : list A) : Permutation (JS.Array_sort cmp l) l.
Proof.
  induction l as [|x l IH]; simpl.
  - apply perm_nil.
  - apply perm_trans with (x :: JS.Array_sort cmp l).
    + apply sort_insert_perm.
    + now apply perm_skip.
Qed.

(** Where the stable insertion puts [x]: after the elements it must
    follow, and before the first one it need not follow. *)
Lemma sort_insert_split (x : A) (before after : list A) :
  Forall (fun y => JS.positive_number (cmp x y) = true) before ->
  match after with
  | [] => True
  | y :: _ => JS.positive_number (cmp x y) = false
  end ->
  JS.sort_insert cmp x (before ++ after) = before ++ x :: after.
Proof.
  intros Hbefore Hafter. induction Hbefore as [|y before Hy _ IH]; simpl.
  - destruct after as [|y after]; simpl in *; [reflexivity | now rewrite Hafter].
  - now rewrite Hy, IH.
Qed.

(** Stability: elements none of which the comparator puts after another
    keep their input order. *)
Lemma sort_insert_filter (P : A -> bool) (x : A) (l : list A) :
  (forall y, P x = true -> P y = true -> (cmp x y <= 0)%Q) ->
  filter P (JS.sort_insert cmp x l) = filter P (x :: l).
Proof.
  intros Hclass. induction l as [|y l IH]; [reflexivity|].
  cbn [JS.sort_insert].
  destruct (JS.positive_number (cmp x y)) eqn:Hxy; [|reflexivity].
  cbn [filter] in *. rewrite IH.
  destruct (P x) eqn:Hx; [|reflexivity].
  destruct (P y) eqn:Hy; [|reflexivity].
  apply positive_number_spec in Hxy.
  exfalso. apply (Qlt_irrefl 0), (Qlt_le_trans _ _ _ Hxy). now apply Hclass.
Qed.

Lemma Array_sort_stable (P : A -> bool) (l : list A) :
  (forall a b, P a = true -> P b = true -> (cmp a b <= 0)%Q) ->
  filter P (JS.Array_sort cmp l) = filter P l.
Proof.
  intros Hclass. induction l as [|x l IH]; [reflexivity|].
  cbn [JS.Array_sort]. rewrite sort_insert_filter by (intro; apply Hclass).
  cbn [filter]. now rewrite IH.
Qed.

(** Sortedness, for any relation the sign of the comparator decides. *)
Variable R : A -> A -> Prop.
Hypothesis R_trans : forall a b c, R a b -> R b c -> R a c.
Hypothesis R_keep : forall a b, JS.positive_number (cmp a b) = false -> R a b.
Hypothesis R_swap : forall a b, JS.positive_number (cmp a b) = true -> R b a.

Lemma sort_insert_sorted (x : A) (l : list A) :
  StronglySorted R l -> StronglySorted R (JS.sort_insert cmp x l).
Proof.
  induction 1 as [|y l Hl IH Hy]; simpl.
  - constructor; constructor.
  - destruct (JS.positive_number (cmp x y)) eqn:Hxy.
    + constructor; [exact IH|].
      apply Permutation_Forall with (x :: l).
      * apply Permutation_sym, sort_insert_perm.
      * constructor; [now apply R_swap | exact Hy].
    + apply R_keep in Hxy.
      constructor; [now constructor|].
      constructor; [exact Hxy|].
      eapply Forall_impl; [|exact Hy]. intros z Hz. now apply R_trans with y.
Qed.

Lemma Array_sort_sorted (l : list A) : StronglySorted R (JS.Array_sort cmp l).
Proof.
  induction l as [|x l IH]; simpl; [constructor | now apply sort_insert_sorted].
Qed.

End SortFacts.

Lemma StronglySorted_map {A B : Type} (f : A -> B) (R : B -> B -> Prop) (l : list A) :
  StronglySorted (fun a b => R (f a) (f b)) l -> StronglySorted R (map f l).
Proof.
  induction 1 as [|x l _ IH Hx]; simpl; constructor; [exact IH|].
  now apply Forall_map.
Qed.

Lemma codeUnitCompare_consistent : consistentComparison codeUnitCompare.
Proof.
  unfold codeUnitCompare. split.
  - intros a b.
    destruct (String_as_OT.compare_spec a b) as [Heq|Hlt|Hgt]; intros H;
      try (vm_compute in H; discriminate H).
    unfold String_as_OT.lt in Hgt. rewrite Hgt. now vm_compute.
  - intros a b c.
    destruct (String_as_OT.compare_spec a b) as [<-|Hab|_]; intros H1 H2;
      [exact H2 | | exfalso; now apply H1].
    destruct (String_as_OT.compare_spec b c) as [<-|Hbc|_];
      [ | | exfalso; now apply H2].
    + unfold String_as_OT.lt in Hab. now rewrite Hab.
    + assert (Hac : String_as_OT.lt a c) by (now transitivity b).
      unfold String_as_OT.lt in Hac. rewrite Hac. now vm_compute.
Qed.

Section SortKeys.

Variable localeCompare : string -> string -> Q.

Lemma compare_popular_first (x y : MenuItem) :
  isPopular x = true ->
  JS.positive_number (compareItems localeCompare "popular" x y) = false.
Proof.
  intros Hx. cbn [compareItems String.eqb Ascii.eqb Bool.eqb]. unfold popularRank.
  rewrite Hx. now destruct (isPopular y).
Qed.

Lemma compare_popular_last (x y : MenuItem) :
  isPopular x = false ->
  JS.positive_number (compareItems localeCompare "popular" x y) = isPopular y.
Proof.
  intros Hx. cbn [compareItems String.eqb Ascii.eqb Bool.eqb]. unfold popularRank.
  rewrite Hx. now destruct (isPopular y).
Qed.

(** Under "popular" the sort is the stable partition by the flag. *)
Lemma Array_sort_popular (l : list MenuItem) :
  JS.Array_sort (compareItems localeCompare "popular") l =
  filter isPopular l ++ filter (fun item => negb (isPopular item)) l.
Proof.
  induction l as [|x l IH]; [reflexivity|].
  cbn [JS.Array_sort filter]. rewrite IH.
  destruct (isPopular x) eqn:Hx; cbn [negb].
  - rewrite <- app_comm_cons.
    generalize (filter isPopular l ++ filter (fun item => negb (isPopular item)) l).
    intros [|y rest]; simpl; [reflexivity|].
    now rewrite compare_popular_first.
  - apply sort_insert_split.
    + apply Forall_forall. intros y Hy. apply filter_In in Hy.
      rewrite compare_popular_last by exact Hx. apply Hy.
    + destruct (filter (fun item => negb (isPopular item)) l) as [|y rest] eqn:Hrest;
        [exact I|].
      assert (Hy : In y (filter (fun item => negb (isPopular item)) l))
        by (rewrite Hrest; now left).
      apply filter_In in Hy. rewrite compare_popular_last by exact Hx.
      now apply negb_true_iff.
Qed.

Lemma Array_sort_price_low (l : list MenuItem) :
  StronglySorted Qle
    (map price (JS.Array_sort (compareItems localeCompare "price-low") l)).
Proof.
  apply StronglySorted_map, Array_sort_sorted.
  - intros a b c. apply Qle_trans.
  - intros a b H. now apply positive_number_diff_false in H.
  - intros a b H. apply positive_number_diff in H. now apply Qlt_le_weak.
Qed.

Lemma Array_sort_price_high (l : list MenuItem) :
  StronglySorted (fun p q => q <= p)%Q
    (map price (JS.Array_sort (compareItems localeCompare "price-high") l)).
Proof.
  apply StronglySorted_map, Array_sort_sorted.
  - intros a b c Hab Hbc. now apply Qle_trans with (price b).
  - intros a b H. now apply positive_number_diff_false in H.
  - intros a b H. apply positive_number_diff in H. now apply Qlt_le_weak.
Qed.

Lemma Array_sort_rating (l : list MenuItem) :
  StronglySorted (fun p q => q <= p)%Q
    (map rating (JS.Array_sort (compareItems localeCompare "rating") l)).
Proof.
  apply StronglySorted_map, Array_sort_sorted.
  - intros a b c Hab Hbc. now apply Qle_trans with (rating b).
  - intros a b H. now apply positive_number_diff_false in H.
  - intros a b H. apply positive_number_diff in H. now apply Qlt_le_weak.
Qed.

(** The scenario of the specification, for any three items so priced. *)
Lemma Array_sort_price_high_scenario (l : list MenuItem) :
  Forall2 Qeq (map price l) [5; 12; 8]%Q ->
  Forall2 Qeq
    (map price (JS.Array_sort (compareItems localeCompare "price-high") l))
    [12; 8; 5]%Q.
Proof.
  intros H.
  destruct l as [|a [|b [|c [|d l]]]]; simpl in H;
    try (repeat match goal with
                | H : Forall2 _ _ _ |- _ => inversion H; clear H; subst
                end; fail).
  inversion H as [|? ? ? ? Ha H1]; subst. clear H.
  inversion H1 as [|? ? ? ? Hb H2]; subst. clear H1.
  inversion H2 as [|? ? ? ? Hc _]; subst. clear H2.
  assert (Hbc : JS.positive_number (price c - price b) = false).
  { apply positive_number_diff_false. rewrite Hb, Hc. discriminate. }
  assert (Hab : JS.positive_number (price b - price a) = true).
  { apply positive_number_diff. now rewrite Ha, Hb. }
  assert (Hac : JS.positive_number (price c - price a) = true).
  { apply positive_number_diff. now rewrite Ha, Hc. }
  cbn [JS.Array_sort JS.sort_insert compareItems String.eqb Ascii.eqb Bool.eqb].
  rewrite Hbc. cbn [JS.sort_insert compareItems String.eqb Ascii.eqb Bool.eqb].
  rewrite Hab, Hac. simpl. repeat constructor; assumption.
Qed.

End SortKeys.

(** C5: for every array and every sort key, the sorted view is a
    permutation of the array it was made from (as items, hence as ids), it
    is a different array, and the input array, like every other array that
    existed before, has the contents it had. *)
Theorem sortedItems_permutation (localeCompare : string -> string -> Q)
    (key : string) (h : Heap.heap MenuItem) (filteredRef : Heap.ref) :
  (filteredRef < List.length h)%nat ->
  let input := Heap.contents h filteredRef in
  let result := sortedItemsIn localeCompare key filteredRef h in
  let out := Heap.contents (snd result) (fst result) in
  Permutation out input /\
  Permutation (map id out) (map id input) /\
  fst result <> filteredRef /\
  Heap.contents (snd result) filteredRef = input /\
  (forall r, (r < List.length h)%nat ->
             Heap.contents (snd result) r = Heap.contents h r).
Proof.
  intros Hvalid input result out.
  assert (Hout : out = JS.Array_sort (compareItems localeCompare key) input).
  { unfold out, result. rewrite sortedItemsIn_run. cbn [fst snd].
    now rewrite contents_new. }
  assert (Hold : forall r, (r < List.length h)%nat ->
                           Heap.contents (snd result) r = Heap.contents h r).
  { intros r Hr. unfold result. rewrite sortedItemsIn_run. cbn [snd].
    now apply contents_old. }
  split; [rewrite Hout; apply Array_sort_perm|].
  split; [rewrite Hout; apply Permutation_map, Array_sort_perm|].
  split; [|split; [now apply Hold | exact Hold]].
  unfold result. rewrite sortedItemsIn_run. cbn [fst]. lia.
Qed.

Lemma sortedItems_permutation_witness :
  Permutation
    (Heap.contents
       (snd (sortedItemsIn codeUnitCompare "price-high" 0%nat [Sample.catalog]))
       1%nat)
    Sample.catalog /\
  Heap.contents
    (snd (sortedItemsIn codeUnitCompare "price-high" 0%nat [Sample.catalog]))
    0%nat = Sample.catalog.
Proof.
  pose proof (sortedItems_permutation codeUnitCompare "price-high"
                [Sample.catalog] 0%nat ltac:(simpl; lia)) as H.
  cbv zeta in H. split; [exact (proj1 H) | exact (proj1 (proj2 (proj2 (proj2 H))))].
Defined.

(** C6: the sorted view is ordered by the selected key.  Under "popular" it
    is the flagged items in their input order followed by the unflagged
    items in their input order; under "price-low" the prices are
    non-decreasing; under "price-high" they are non-increasing, and items
    priced 5, 12, 8 come out priced 12, 8, 5; under "rating" the ratings
    are non-increasing. *)
Theorem sortedItems_ordered (localeCompare : string -> string -> Q) (st : AppState) :
  let input := filteredItems st in
  let out := sortedItems localeCompare st in
  (sortBy st = "popular"%string ->
   out = filter isPopular input ++ filter (fun item => negb (isPopular item)) input) /\
  (sortBy st = "price-low"%string -> StronglySorted Qle (map price out)) /\
  (sortBy st = "price-high"%string ->
   StronglySorted (fun p q => q <= p)%Q (map price out) /\
   (Forall2 Qeq (map price input) [5; 12; 8]%Q ->
    Forall2 Qeq (map price out) [12; 8; 5]%Q)) /\
  (sortBy st = "rating"%string ->
   StronglySorted (fun p q => q <= p)%Q (map rating out)).
Proof.
  intros input out. unfold out, input, sortedItems.
  split; [|split; [|split]]; intros Hkey; rewrite Hkey.
  - apply Array_sort_popular.
  - apply Array_sort_price_low.
  - split; [apply Array_sort_price_high | apply Array_sort_price_high_scenario].
  - apply Array_sort_rating.
Qed.

Lemma sortedItems_ordered_witness :
  map price (sortedItems codeUnitCompare
               (mkAppState [Sample.salad; Sample.burger; Sample.tiramisu] []
                           [] "all" "" "price-high" false []))
  = [12; 8; 5]%Q /\
  sortedItems codeUnitCompare (Sample.browsing "all" "" "popular")
  = [Sample.tiramisu; Sample.margherita; Sample.salad; Sample.burger].
Proof.
  split; [reflexivity|].
  exact (proj1 (sortedItems_ordered codeUnitCompare
                  (Sample.browsing "all" "" "popular")) eq_refl).
Defined.

(** C10: a sort key that is none of "price-low", "price-high", "rating",
    "popular" (the key "name", or any other string) takes the default
    branch: the view is the item list sorted by [localeCompare] on the
    names, the same as for "name"; it is a permutation of the input, and
    ascending for the comparison whenever the comparison is consistent. *)
Theorem sortedItems_default_branch (localeCompare : string -> string -> Q)
    (st : AppState) :
  sortBy st <> "price-low"%string ->
  sortBy st <> "price-high"%string ->
  sortBy st <> "rating"%string ->
  sortBy st <> "popular"%string ->
  let out := sortedItems localeCompare st in
  out = JS.Array_sort (fun a b => localeCompare (name a) (name b)) (filteredItems st) /\
  out = sortedItems localeCompare (setSortBy "name" st) /\
  Permutation out (filteredItems st) /\
  (consistentComparison localeCompare ->
   StronglySorted (fun a b => localeCompare (name a) (name b) <= 0)%Q out).
Proof.
  intros H1 H2 H3 H4 out.
  apply String.eqb_neq in H1, H2, H3, H4.
  assert (Hout : out =
            JS.Array_sort (fun a b => localeCompare (name a) (name b)) (filteredItems st)).
  { unfold out, sortedItems, compareItems. now rewrite H1, H2, H3, H4. }
  split; [exact Hout|]. split; [rewrite Hout; reflexivity|].
  split; [rewrite Hout; apply Array_sort_perm|].
  intros [Htotal Htrans]. rewrite Hout. apply Array_sort_sorted.
  - intros a b c. apply Htrans.
  - intros a b H. now apply positive_number_false.
  - intros a b H. now apply Htotal, positive_number_spec.
Qed.

Lemma sortedItems_default_branch_witness :
  sortedItems codeUnitCompare (Sample.browsing "all" "" "newest")
  = [Sample.salad; Sample.burger; Sample.margherita; Sample.tiramisu] /\
  StronglySorted (fun a b => codeUnitCompare (name a) (name b) <= 0)%Q
    (sortedItems codeUnitCompare (Sample.browsing "all" "" "newest")).
Proof.
  split; [reflexivity|].
  apply (sortedItems_default_branch codeUnitCompare
           (Sample.browsing "all" "" "newest"));
    [discriminate | discriminate | discriminate | discriminate |].
  exact codeUnitCompare_consistent.
Defined.

(** ** Cart totals *)

Lemma reduce_sumQ {A : Type} (f : A -> Q) (l : list A) (init : Q) :
  (JS.Array_reduce (fun total x => total + f x) init l == init + sumQ (map f l))%Q.
Proof.
  unfold JS.Array_reduce. revert init.
  induction l as [|x l IH]; intros init; simpl.
  - ring.
  - rewrite IH. ring.
Qed.

Lemma reduce_sumZ {A : Type} (f : A -> Z) (l : list A) (init : Z) :
  JS.Array_reduce (fun total x => total + f x) init l = init + sumZ (map f l).
Proof.
  unfold JS.Array_reduce. revert init.
  induction l as [|x l IH]; intros init; simpl.
  - lia.
  - rewrite IH. lia.
Qed.

Lemma sumQ_app (l m : list Q) : (sumQ (l ++ m) == sumQ l + sumQ m)%Q.
Proof. induction l as [|x l IH]; simpl; [ring | rewrite IH; ring]. Qed.

Lemma sumZ_app (l m : list Z) : sumZ (l ++ m) = sumZ l + sumZ m.
Proof. induction l as [|x l IH]; simpl; lia. Qed.

Lemma sumQ_perm (l m : list Q) : Permutation l m -> (sumQ l == sumQ m)%Q.
Proof.
  induction 1 as [|x l m _ IH|x y l|l m n _ IH1 _ IH2]; simpl.
  - reflexivity.
  - now rewrite IH.
  - ring.
  - now rewrite IH1.
Qed.

Lemma sumZ_perm (l m : list Z) : Permutation l m -> sumZ l = sumZ m.
Proof.
  induction 1 as [|x l m _ IH|x y l|l m n _ IH1 _ IH2]; simpl; lia.
Qed.

Lemma getTotalPrice_sum (st : AppState) :
  (getTotalPrice st == sumQ (map linePrice (cart st)))%Q.
Proof.
  unfold getTotalPrice.
  rewrite (reduce_sumQ linePrice). ring.
Qed.

Lemma getTotalItems_sum (st : AppState) :
  getTotalItems st = sumZ (map quantity (cart st)).
Proof. unfold getTotalItems. now rewrite (reduce_sumZ quantity). Qed.

Lemma getTotalPrice64_accumulated (st : AppState) :
  Binary64.getTotalPrice st = accumulated64 (rev (map linePrice64 (cart st))).
Proof.
  unfold Binary64.getTotalPrice, JS.Array_reduce.
  induction (cart st) as [|line c IH] using rev_ind; [reflexivity|].
  rewrite fold_left_app, map_app, rev_app_distr.
  cbn [fold_left map rev app accumulated64]. now rewrite <- IH.
Qed.

(** C7, as the code has it: [getTotalPrice] is the double reached from 0 by
    adding, line after line in the order of the cart, the double product
    of price and quantity, every product and every addition rounded;
    [getTotalItems] is the sum of the quantities, whatever the order of
    the lines; both are 0 for the empty cart. *)
Theorem totals_accumulate (st : AppState) :
  Binary64.getTotalPrice st = accumulated64 (rev (map linePrice64 (cart st))) /\
  (forall c line,
      cart st = c ++ [line] ->
      Binary64.getTotalPrice st =
      SFadd Binary64.prec Binary64.emax
            (Binary64.getTotalPrice (setCart (fun _ => c) st)) (linePrice64 line)) /\
  getTotalItems st = sumZ (map quantity (cart st)) /\
  (forall st' : AppState,
      Permutation (cart st) (cart st') -> getTotalItems st = getTotalItems st') /\
  (cart st = [] ->
   Binary64.getTotalPrice st = Binary64.ofZ 0 /\ getTotalItems st = 0).
Proof.
  split; [apply getTotalPrice64_accumulated|]. split; [|split; [|split]].
  - intros c line Hc. rewrite !getTotalPrice64_accumulated.
    cbn [cart setCart]. now rewrite Hc, map_app, rev_app_distr.
  - apply getTotalItems_sum.
  - intros st' Hperm. rewrite !getTotalItems_sum.
    now apply sumZ_perm, Permutation_map.
  - intros Hempty. unfold Binary64.getTotalPrice, getTotalItems.
    rewrite Hempty. split; reflexivity.
Qed.

Lemma totals_accumulate_witness :
  Binary64.getTotalPrice initialState = Binary64.ofZ 0 /\
  getTotalItems initialState = 0 /\
  Binary64.getTotalPrice Corner.threePoppers
  = SFadd Binary64.prec Binary64.emax (Binary64.ofZ 0)
          (linePrice64 (mkCartItem Corner.poppers 3)).
Proof.
  pose proof (totals_accumulate initialState) as Hinitial.
  pose proof (totals_accumulate Corner.threePoppers) as Hthree.
  split; [|split].
  - exact (proj1 (proj2 (proj2 (proj2 (proj2 Hinitial))) eq_refl)).
  - exact (proj2 (proj2 (proj2 (proj2 (proj2 Hinitial))) eq_refl)).
  - exact (proj1 (proj2 Hthree) [] (mkCartItem Corner.poppers 3) eq_refl).
Defined.

(** C7, as stated, fails: three portions at 9.95 sum to 29.85, and
    [getTotalPrice] is another double (29.849999999999998); and the carts
    0.1, 0.2, 0.3 and 0.3, 0.2, 0.1 have the same lines and different
    totals. *)
Lemma total_is_not_the_sum :
  (sumQ (map linePrice (cart Corner.threePoppers)) == 29.85)%Q /\
  Binary64.equal (Binary64.getTotalPrice Corner.threePoppers)
                 (Binary64.ofDecimal (sumQ (map linePrice (cart Corner.threePoppers))))
  = false /\
  Permutation (cart Corner.tenths) (cart Corner.tenthsReversed) /\
  Binary64.equal (Binary64.getTotalPrice Corner.tenths)
                 (Binary64.getTotalPrice Corner.tenthsReversed)
  = false.
Proof.
  split; [reflexivity|]. split; [now vm_compute|]. split; [|now vm_compute].
  simpl. apply Permutation_rev with (l := [_; _; _]).
Qed.

(** ** Cart lines *)

Lemma lineFor_None (itemId : Z) (c : list CartItem) :
  lineFor itemId c = None <-> ~ In itemId (map cart_id c).
Proof.
  unfold lineFor. induction c as [|l c IH]; simpl.
  - tauto.
  - destruct (cart_id l =? itemId) eqn:Hid.
    + apply Z.eqb_eq in Hid. split; [discriminate | intros H; exfalso; auto].
    + apply Z.eqb_neq in Hid. rewrite IH. tauto.
Qed.

Lemma lineFor_Some (itemId : Z) (c : list CartItem) (line : CartItem) :
  lineFor itemId c = Some line -> In line c /\ cart_id line = itemId.
Proof.
  unfold lineFor. intros H. apply find_some in H.
  now rewrite Z.eqb_eq in H.
Qed.

Section LineUpdate.

(** The shape of the two [map] calls of the cart: the lines of one item
    are rebuilt with a new quantity, the others are passed through. *)
Variable itemId : Z.
Variable newQuantity : CartItem -> Z.

Let update (line : CartItem) : CartItem :=
  if cart_id line =? itemId
  then mkCartItem (item_of line) (newQuantity line)
  else line.

Lemma update_ids (c : list CartItem) : map cart_id (map update c) = map cart_id c.
Proof.
  rewrite map_map. apply map_ext. intros line. unfold update.
  now destruct (cart_id line =? itemId).
Qed.

Lemma update_others (c : list CartItem) :
  ~ In itemId (map cart_id c) -> map update c = c.
Proof.
  induction c as [|l c IH]; simpl; intros H; [reflexivity|].
  rewrite IH by tauto. unfold update.
  destruct (cart_id l =? itemId) eqn:Hid; [|reflexivity].
  apply Z.eqb_eq in Hid. tauto.
Qed.

Lemma update_single (before after : list CartItem) (line : CartItem) :
  cart_id line = itemId ->
  ~ In itemId (map cart_id before) -> ~ In itemId (map cart_id after) ->
  map update (before ++ line :: after) =
  before ++ mkCartItem (item_of line) (newQuantity line) :: after.
Proof.
  intros Hid Hb Ha. rewrite map_app. simpl.
  rewrite !update_others by assumption.
  unfold update. now rewrite (proj2 (Z.eqb_eq _ _) Hid).
Qed.

Lemma update_lineFor (c : list CartItem) (line : CartItem) :
  lineFor itemId c = Some line ->
  lineFor itemId (map update c) =
  Some (mkCartItem (item_of line) (newQuantity line)).
Proof.
  unfold lineFor. induction c as [|l c IH]; simpl; [discriminate|].
  unfold update at 1.
  destruct (cart_id l =? itemId) eqn:Hid.
  - intros [= ->]. unfold cart_id in *. simpl. rewrite Hid.
    unfold update, cart_id. now rewrite Hid.
  - rewrite Hid. exact IH.
Qed.

End LineUpdate.

Lemma distinctLines_filter (keep : CartItem -> bool) (c : list CartItem) :
  distinctLines c -> distinctLines (filter keep c).
Proof.
  unfold distinctLines. induction c as [|line c IH]; simpl; intros Hc; [constructor|].
  apply NoDup_cons_iff in Hc as [Hline Hc].
  destruct (keep line); simpl; [|now apply IH].
  apply NoDup_cons; [|now apply IH].
  contradict Hline. apply in_map_iff in Hline as [other [Hid Hin]].
  apply filter_In in Hin. apply in_map_iff. exists other. tauto.
Qed.

Lemma NoDup_map_snoc {A B : Type} (f : A -> B) (l : list A) (x : A) :
  NoDup (map f l) -> ~ In (f x) (map f l) -> NoDup (map f (l ++ [x])).
Proof.
  intros Hl Hx. rewrite map_app. simpl.
  apply Permutation_NoDup with (f x :: map f l).
  - apply Permutation_cons_append.
  - now constructor.
Qed.

Lemma cart_addToCart_present (item : MenuItem) (st : AppState) :
  lineFor (id item) (cart st) <> None ->
  cart (addToCart item st) =
  map (fun line =>
         if cart_id line =? id item
         then mkCartItem (item_of line) (quantity line + 1)
         else line) (cart st).
Proof.
  unfold addToCart, setCart, lineFor. simpl.
  now destruct (find _ (cart st)).
Qed.

Lemma cart_addToCart_absent (item : MenuItem) (st : AppState) :
  lineFor (id item) (cart st) = None ->
  cart (addToCart item st) = cart st ++ [mkCartItem item 1].
Proof.
  unfold addToCart, setCart, lineFor. simpl. now intros ->.
Qed.

Lemma cart_updateQuantity_nonzero (itemId n : Z) (st : AppState) :
  n <> 0 ->
  cart (updateQuantity itemId n st) =
  map (fun line =>
         if cart_id line =? itemId then mkCartItem (item_of line) n else line)
      (cart st).
Proof.
  intros Hn. unfold updateQuantity.
  now rewrite (proj2 (Z.eqb_neq _ _) Hn).
Qed.

(** What [updateQuantity] does for every quantity other than 0. *)
Lemma updateQuantity_nonzero (itemId n : Z) (st : AppState) :
  n <> 0 ->
  let c := cart st in
  let c' := cart (updateQuantity itemId n st) in
  (forall before line after,
      c = before ++ line :: after -> cart_id line = itemId ->
      ~ In itemId (map cart_id before) -> ~ In itemId (map cart_id after) ->
      c' = before ++ mkCartItem (item_of line) n :: after) /\
  (forall line,
      lineFor itemId c = Some line ->
      lineFor itemId c' = Some (mkCartItem (item_of line) n)) /\
  (lineFor itemId c = None -> c' = c).
Proof.
  intros Hn c c'. unfold c'. rewrite cart_updateQuantity_nonzero by exact Hn.
  fold c. split; [|split].
  - intros before line after -> Hid Hb Ha.
    now apply (update_single itemId (fun _ => n)).
  - intros line. apply (update_lineFor itemId (fun _ => n)).
  - intros Hnone. apply (update_others itemId (fun _ => n)).
    now apply lineFor_None.
Qed.

(** ** Cart manager *)

(** C4: when the item's id occurs on one line of the cart, [addToCart]
    gives the same cart with that line's quantity one higher; when it
    occurs on none, the cart with a new line of quantity 1 at the end.
    Adding an absent item twice leaves one line for it, of quantity 2, and
    raises the totals by 2 and by twice the price; from the empty cart and
    a price of 8.99 the totals are 17.98 and 2, in exact and in binary64
    arithmetic. *)
Theorem addToCart_contract (item : MenuItem) (st : AppState) :
  let c := cart st in
  let once := addToCart item st in
  let twice := addToCart item once in
  (forall before line after,
      c = before ++ line :: after -> cart_id line = id item ->
      ~ In (id item) (map cart_id before) -> ~ In (id item) (map cart_id after) ->
      cart once = before ++ mkCartItem (item_of line) (quantity line + 1) :: after) /\
  (lineFor (id item) c = None ->
   cart once = c ++ [mkCartItem item 1] /\
   cart twice = c ++ [mkCartItem item 2] /\
   getTotalItems twice = getTotalItems st + 2 /\
   (getTotalPrice twice == getTotalPrice st + price item * 2)%Q) /\
  (c = [] -> (price item == 8.99)%Q ->
   cart twice = [mkCartItem item 2] /\
   (getTotalPrice twice == 17.98)%Q /\
   getTotalItems twice = 2) /\
  (c = [] -> price item = 8.99%Q ->
   Binary64.equal (Binary64.getTotalPrice twice) (Binary64.ofDecimal 17.98) = true).
Proof.
  intros c once twice.
  assert (Habsent : lineFor (id item) c = None ->
                    cart once = c ++ [mkCartItem item 1] /\
                    cart twice = c ++ [mkCartItem item 2]).
  { intros Hnone.
    assert (Honce : cart once = c ++ [mkCartItem item 1])
      by now apply cart_addToCart_absent.
    split; [exact Honce|].
    unfold twice. rewrite cart_addToCart_present.
    - rewrite Honce.
      apply (update_single (id item) (fun line => quantity line + 1) c []
                           (mkCartItem item 1)).
      + reflexivity.
      + now apply lineFor_None.
      + intros [].
    - rewrite Honce, lineFor_None, map_app, in_app_iff. simpl.
      unfold cart_id at 2. simpl. tauto. }
  split; [|split; [|split]].
  - intros before line after Hc Hid Hb Ha. unfold once.
    rewrite cart_addToCart_present.
    + fold c. rewrite Hc.
      now apply (update_single (id item) (fun l => quantity l + 1)).
    + fold c. rewrite lineFor_None, Hc, map_app, in_app_iff. simpl. tauto.
  - intros Hnone. destruct (Habsent Hnone) as [Honce Htwice].
    split; [exact Honce|]. split; [exact Htwice|]. split.
    + rewrite !getTotalItems_sum, Htwice, map_app, sumZ_app. simpl. fold c. lia.
    + rewrite !getTotalPrice_sum, Htwice, map_app, sumQ_app. simpl. fold c.
      unfold linePrice at 2. simpl. ring.
  - intros Hempty Hprice.
    destruct (Habsent ltac:(now rewrite Hempty)) as [_ Htwice].
    rewrite Hempty in Htwice. split; [exact Htwice|]. split.
    + rewrite getTotalPrice_sum, Htwice. simpl. unfold linePrice. simpl.
      rewrite Hprice. reflexivity.
    + rewrite getTotalItems_sum, Htwice. reflexivity.
  - intros Hempty Hprice.
    destruct (Habsent ltac:(now rewrite Hempty)) as [_ Htwice].
    unfold Binary64.getTotalPrice. rewrite Htwice, Hempty. simpl.
    rewrite Hprice. now vm_compute.
Qed.

Lemma addToCart_contract_witness :
  cart (addToCart Sample.margherita (addToCart Sample.margherita initialState))
  = [mkCartItem Sample.margherita 2] /\
  (getTotalPrice
     (addToCart Sample.margherita (addToCart Sample.margherita initialState))
   == 17.98)%Q /\
  getTotalItems
    (addToCart Sample.margherita (addToCart Sample.margherita initialState)) = 2.
Proof.
  apply (proj1 (proj2 (proj2 (addToCart_contract Sample.margherita initialState))));
    reflexivity.
Defined.

(** C1, as the code has it: for a quantity [n > 0], [updateQuantity] sets
    the quantity of the line for [itemId] to [n] when the cart has such a
    line, keeping its other fields and every other line; when the cart has
    no line for [itemId] it is left as it is, and no line is created. *)
Theorem updateQuantity_positive (itemId n : Z) (st : AppState) :
  0 < n ->
  let c := cart st in
  let c' := cart (updateQuantity itemId n st) in
  (forall before line after,
      c = before ++ line :: after -> cart_id line = itemId ->
      ~ In itemId (map cart_id before) -> ~ In itemId (map cart_id after) ->
      c' = before ++ mkCartItem (item_of line) n :: after) /\
  (forall line,
      lineFor itemId c = Some line ->
      lineFor itemId c' = Some (mkCartItem (item_of line) n)) /\
  (lineFor itemId c = None -> c' = c).
Proof. intros Hn. apply updateQuantity_nonzero. lia. Qed.

Lemma updateQuantity_positive_witness :
  0 < 5 /\
  cart (updateQuantity 3 5
          (Sample.session [mkCartItem Sample.burger 1; mkCartItem Sample.salad 2]))
  = [mkCartItem Sample.burger 1; mkCartItem Sample.salad 5] /\
  cart (updateQuantity 4 5
          (Sample.session [mkCartItem Sample.burger 1; mkCartItem Sample.salad 2]))
  = [mkCartItem Sample.burger 1; mkCartItem Sample.salad 2].
Proof.
  split; [lia|]. split.
  - apply (proj1 (updateQuantity_positive 3 5 (Sample.session _) ltac:(lia))
             [mkCartItem Sample.burger 1] (mkCartItem Sample.salad 2) []);
      [reflexivity | reflexivity | cbv; intuition discriminate | simpl; tauto].
  - apply (proj2 (proj2 (updateQuantity_positive 4 5 (Sample.session _) ltac:(lia)))).
    reflexivity.
Defined.

(** C1, as stated, fails: on the empty cart [updateQuantity 1 5] creates no
    line. *)
Lemma updateQuantity_creates_no_line :
  0 < 5 /\
  ~ lineHasQuantity 1 5 (cart (updateQuantity 1 5 (Sample.session []))).
Proof.
  split; [lia|]. intros [line [Hline _]]. discriminate Hline.
Qed.

(** C2, as the code has it: a quantity [n < 0] is not rejected.
    [updateQuantity] stores it as the quantity of the line for [itemId]
    when the cart has such a line, keeping the other lines; the cart is
    left as it is when it has no line for [itemId]. *)
Theorem updateQuantity_negative (itemId n : Z) (st : AppState) :
  n < 0 ->
  let c := cart st in
  let c' := cart (updateQuantity itemId n st) in
  (forall before line after,
      c = before ++ line :: after -> cart_id line = itemId ->
      ~ In itemId (map cart_id before) -> ~ In itemId (map cart_id after) ->
      c' = before ++ mkCartItem (item_of line) n :: after) /\
  (forall line,
      lineFor itemId c = Some line -> lineHasQuantity itemId n c') /\
  (lineFor itemId c = None -> c' = c).
Proof.
  intros Hn c c'.
  destruct (updateQuantity_nonzero itemId n st ltac:(lia)) as [H1 [H2 H3]].
  split; [exact H1|]. split; [|exact H3].
  intros line Hline. exists (mkCartItem (item_of line) n).
  split; [now apply H2 | reflexivity].
Qed.

Lemma updateQuantity_negative_witness :
  -3 < 0 /\
  cart (updateQuantity 1 (-3) (Sample.session [mkCartItem Sample.margherita 1]))
  = [mkCartItem Sample.margherita (-3)].
Proof.
  split; [lia|].
  apply (proj1 (updateQuantity_negative 1 (-3) (Sample.session _) ltac:(lia))
           [] (mkCartItem Sample.margherita 1) []);
    [reflexivity | reflexivity | simpl; tauto | simpl; tauto].
Defined.

(** C2, as stated, fails: [updateQuantity 1 (-3)] changes a cart holding
    one Margherita, and the line then has quantity -3. *)
Lemma updateQuantity_stores_negative :
  -3 < 0 /\
  cart (updateQuantity 1 (-3) (Sample.session [mkCartItem Sample.margherita 1]))
  <> cart (Sample.session [mkCartItem Sample.margherita 1]) /\
  lineHasQuantity 1 (-3)
    (cart (updateQuantity 1 (-3) (Sample.session [mkCartItem Sample.margherita 1]))).
Proof.
  split; [lia|]. split.
  - discriminate.
  - now exists (mkCartItem Sample.margherita (-3)).
Qed.

(** C9: a cart whose lines have pairwise distinct item ids still has
    pairwise distinct ids after [addToCart], after [removeFromCart] and
    after [updateQuantity]. *)
Theorem distinctLines_preserved (st : AppState) :
  distinctLines (cart st) ->
  (forall item, distinctLines (cart (addToCart item st))) /\
  (forall itemId, distinctLines (cart (removeFromCart itemId st))) /\
  (forall itemId n, distinctLines (cart (updateQuantity itemId n st))).
Proof.
  unfold distinctLines. intros Hdistinct.
  assert (Hremove : forall itemId,
             NoDup (map cart_id (cart (removeFromCart itemId st))))
    by (intros itemId; now apply distinctLines_filter).
  split; [|split; [exact Hremove|]].
  - intros item. destruct (lineFor (id item) (cart st)) as [line|] eqn:Hline.
    + rewrite cart_addToCart_present by (rewrite Hline; discriminate).
      now rewrite (update_ids (id item) (fun l => quantity l + 1)).
    + rewrite cart_addToCart_absent by exact Hline.
      apply NoDup_map_snoc; [exact Hdistinct|].
      now apply lineFor_None.
  - intros itemId n. destruct (Z.eq_dec n 0) as [->|Hn].
    + apply Hremove.
    + rewrite cart_updateQuantity_nonzero by exact Hn.
      now rewrite (update_ids itemId (fun _ => n)).
Qed.

Lemma distinctLines_preserved_witness :
  distinctLines
    (cart (addToCart Sample.salad
             (Sample.session [mkCartItem Sample.burger 1; mkCartItem Sample.salad 2]))) /\
  distinctLines
    (cart (updateQuantity 2 0
             (Sample.session [mkCartItem Sample.burger 1; mkCartItem Sample.salad 2]))).
Proof.
  assert (H : distinctLines
                (cart (Sample.session
                         [mkCartItem Sample.burger 1; mkCartItem Sample.salad 2]))).
  { unfold distinctLines. simpl. repeat constructor; cbv; intuition discriminate. }
  split; [apply (distinctLines_preserved _ H) | apply (distinctLines_preserved _ H)].
Defined.

(** ** Favorites *)

Lemma Array_includes_In (l : list Z) (x : Z) :
  JS.Array_includes Z.eqb l x = true <-> In x l.
Proof.
  unfold JS.Array_includes. rewrite existsb_exists. split.
  - intros [y [Hin Hy]]. apply Z.eqb_eq in Hy. now subst.
  - intros Hin. exists x. split; [exact Hin | apply Z.eqb_refl].
Qed.

Lemma favorites_toggleFavorite (itemId : Z) (st : AppState) (i : Z) :
  In i (favorites (toggleFavorite itemId st)) <->
  (i = itemId /\ ~ In itemId (favorites st)) \/ (i <> itemId /\ In i (favorites st)).
Proof.
  unfold toggleFavorite, setFavorites. simpl.
  destruct (JS.Array_includes Z.eqb (favorites st) itemId) eqn:Hinc.
  - apply Array_includes_In in Hinc.
    rewrite filter_In, negb_true_iff, Z.eqb_neq. tauto.
  - assert (Hnot : ~ In itemId (favorites st))
      by (rewrite <- Array_includes_In, Hinc; discriminate).
    rewrite in_app_iff. simpl.
    destruct (Z.eq_dec i itemId) as [->|Hne]; [tauto|].
    split; [intros [H|[H|[]]]; [tauto | congruence] | tauto].
Qed.

(** C8: [toggleFavorite] adds the id when it is absent and removes it when
    it is present, leaves the membership of every other id alone, and two
    toggles in a row give back the same set of ids. *)
Theorem toggleFavorite_contract (itemId : Z) (st : AppState) :
  let before := favorites st in
  let once := favorites (toggleFavorite itemId st) in
  let twice := favorites (toggleFavorite itemId (toggleFavorite itemId st)) in
  (In itemId once <-> ~ In itemId before) /\
  (forall i, i <> itemId -> (In i once <-> In i before)) /\
  (forall i, In i twice <-> In i before).
Proof.
  intros before once twice. unfold once, twice, before.
  split; [|split].
  - rewrite favorites_toggleFavorite. tauto.
  - intros i Hne. rewrite favorites_toggleFavorite. tauto.
  - intros i. rewrite !favorites_toggleFavorite.
    destruct (Z.eq_dec i itemId) as [->|Hne]; [|tauto].
    destruct (in_dec Z.eq_dec itemId (favorites st)); tauto.
Qed.

(** * Further properties of the component *)

(** ** Cart lines, continued *)

Lemma lineFor_split (itemId : Z) (c : list CartItem) (line : CartItem) :
  distinctLines c -> lineFor itemId c = Some line ->
  exists before after,
    c = before ++ line :: after /\
    ~ In itemId (map cart_id before) /\ ~ In itemId (map cart_id after).
Proof.
  intros Hdistinct Hline. apply lineFor_Some in Hline as [Hin Hid].
  apply in_split in Hin as [before [after ->]].
  exists before, after. split; [reflexivity|].
  unfold distinctLines in Hdistinct. rewrite map_app in Hdistinct. simpl in Hdistinct.
  apply NoDup_remove_2 in Hdistinct. rewrite Hid, in_app_iff in Hdistinct. tauto.
Qed.

Lemma lineFor_In (c : list CartItem) (line : CartItem) :
  distinctLines c -> In line c -> lineFor (cart_id line) c = Some line.
Proof.
  unfold distinctLines, lineFor.
  induction c as [|l c IH]; simpl; intros Hdistinct Hin; [contradiction|].
  apply NoDup_cons_iff in Hdistinct as [Hl Hc].
  destruct Hin as [->|Hin].
  - now rewrite Z.eqb_refl.
  - destruct (cart_id l =? cart_id line) eqn:Hid; [|now apply IH].
    apply Z.eqb_eq in Hid. exfalso. apply Hl. rewrite Hid. now apply in_map.
Qed.

Lemma Forall_line_update (P : CartItem -> Prop) (itemId : Z)
    (newQuantity : CartItem -> Z) (c : list CartItem) :
  Forall P c ->
  (forall line, In line c -> cart_id line = itemId ->
                P (mkCartItem (item_of line) (newQuantity line))) ->
  Forall P (map (fun line =>
                   if cart_id line =? itemId
                   then mkCartItem (item_of line) (newQuantity line)
                   else line) c).
Proof.
  intros Hc Hnew. rewrite Forall_forall in Hc.
  apply Forall_map, Forall_forall. intros line Hin.
  destruct (cart_id line =? itemId) eqn:Hid.
  - apply Hnew; [exact Hin | now apply Z.eqb_eq].
  - now apply Hc.
Qed.

Lemma Forall_filter {A : Type} (P : A -> Prop) (keep : A -> bool) (l : list A) :
  Forall P l -> Forall P (filter keep l).
Proof.
  rewrite !Forall_forall. intros H x Hx. apply filter_In in Hx. now apply H.
Qed.

Lemma distinctLines_addToCart (item : MenuItem) (st : AppState) :
  distinctLines (cart st) -> distinctLines (cart (addToCart item st)).
Proof.
  intros Hdistinct. unfold distinctLines.
  destruct (lineFor (id item) (cart st)) as [line|] eqn:Hline.
  - rewrite cart_addToCart_present by (rewrite Hline; discriminate).
    now rewrite (update_ids (id item) (fun l => quantity l + 1)).
  - rewrite cart_addToCart_absent by exact Hline.
    apply NoDup_map_snoc; [exact Hdistinct | now apply lineFor_None].
Qed.

Lemma distinctLines_updateQuantity (itemId n : Z) (st : AppState) :
  distinctLines (cart st) -> distinctLines (cart (updateQuantity itemId n st)).
Proof.
  intros Hdistinct. destruct (Z.eq_dec n 0) as [->|Hn].
  - now apply distinctLines_filter.
  - unfold distinctLines. rewrite cart_updateQuantity_nonzero by exact Hn.
    now rewrite (update_ids itemId (fun _ => n)).
Qed.

Lemma Forall_addToCart (P : CartItem -> Prop) (item : MenuItem) (st : AppState) :
  Forall P (cart st) ->
  (forall line, In line (cart st) ->
                P line -> P (mkCartItem (item_of line) (quantity line + 1))) ->
  P (mkCartItem item 1) ->
  Forall P (cart (addToCart item st)).
Proof.
  intros Hc Hbump Hnew.
  destruct (lineFor (id item) (cart st)) as [line|] eqn:Hline.
  - rewrite cart_addToCart_present by (rewrite Hline; discriminate).
    apply (Forall_line_update P (id item) (fun l => quantity l + 1)); [exact Hc|].
    intros l Hin _. apply Hbump; [exact Hin|].
    revert l Hin. now apply Forall_forall.
  - rewrite cart_addToCart_absent by exact Hline.
    apply Forall_app. split; [exact Hc | now constructor].
Qed.

Lemma Forall_updateQuantity (P : CartItem -> Prop) (itemId n : Z) (st : AppState) :
  Forall P (cart st) ->
  (n <> 0 -> forall line, In line (cart st) -> P line ->
                          P (mkCartItem (item_of line) n)) ->
  Forall P (cart (updateQuantity itemId n st)).
Proof.
  intros Hc Hset. destruct (Z.eq_dec n 0) as [->|Hn].
  - now apply Forall_filter.
  - rewrite cart_updateQuantity_nonzero by exact Hn.
    apply (Forall_line_update P itemId (fun _ => n)); [exact Hc|].
    intros l Hin _. apply Hset; [exact Hn | exact Hin |].
    revert l Hin. now apply Forall_forall.
Qed.

(** ** The views *)

Lemma filteredItems_incl (st : AppState) (item : MenuItem) :
  In item (filteredItems st) -> In item (items st).
Proof. unfold filteredItems. intros H. now apply filter_In in H. Qed.

Lemma sortedItems_In (localeCompare : string -> string -> Q) (st : AppState)
    (item : MenuItem) :
  In item (sortedItems localeCompare st) <-> In item (filteredItems st).
Proof.
  unfold sortedItems. split; apply Permutation_in.
  - apply Array_sort_perm.
  - apply Permutation_sym, Array_sort_perm.
Qed.

(** ** Favorites, continued *)

Lemma NoDup_toggleFavorite (itemId : Z) (st : AppState) :
  NoDup (favorites st) -> NoDup (favorites (toggleFavorite itemId st)).
Proof.
  intros Hnodup. unfold toggleFavorite, setFavorites. simpl.
  destruct (JS.Array_includes Z.eqb (favorites st) itemId) eqn:Hinc.
  - now apply NoDup_filter.
  - apply Permutation_NoDup with (itemId :: favorites st).
    + apply Permutation_cons_append.
    + constructor; [|exact Hnodup].
      rewrite <- Array_includes_In, Hinc. discriminate.
Qed.

(** ** Sessions *)

Lemma mount_invariant (menuData : MenuData) :
  sessionInvariant menuData (mount menuData initialState).
Proof.
  constructor; simpl; try reflexivity; try constructor.
  - unfold sortOptions. simpl. tauto.
  - reflexivity.
Qed.

Lemma updateQuantity_frame (itemId n : Z) (st : AppState) :
  updateQuantity itemId n st =
  setCart (fun _ => cart (updateQuantity itemId n st)) st.
Proof. unfold updateQuantity. now destruct (n =? 0). Qed.

Lemma setCart_invariant (menuData : MenuData) (st : AppState)
    (c : list CartItem) :
  sessionInvariant menuData st ->
  distinctLines c ->
  Forall (fun line => 1 <= quantity line) c ->
  Forall (fun line => In (item_of line) (md_items menuData)) c ->
  sessionInvariant menuData (setCart (fun _ => c) st).
Proof. intros [] H1 H2 H3. now constructor. Qed.

Lemma handle_invariant (localeCompare : string -> string -> Q)
    (menuData : MenuData) (st : AppState) (e : Event) :
  sessionInvariant menuData st -> offered localeCompare st e ->
  sessionInvariant menuData (handle e st).
Proof.
  intros Hinv Hoffered.
  pose proof Hinv as [Hitems Hcats Hdistinct Hpos Hcatalog Hfav Hfavcat Hsort Hcat].
  assert (Hquantity : forall line, In line (cart st) -> 1 <= quantity line)
    by now apply Forall_forall.
  assert (Hshown : forall item, In item (sortedItems localeCompare st) ->
                                In item (md_items menuData)).
  { intros item Hin. rewrite <- Hitems.
    now apply filteredItems_incl, (sortedItems_In localeCompare). }
  destruct e as [text|key| |category|open| |item|item|line|line|line];
    simpl in Hoffered; cbn [handle].
  - now constructor.
  - now constructor.
  - constructor; simpl; try assumption. now left.
  - constructor; simpl; try assumption.
    right. rewrite <- Hcats. now apply in_map.
  - now constructor.
  - now constructor.
  - (* add *)
    constructor; simpl; try assumption.
    + now apply distinctLines_addToCart.
    + apply Forall_addToCart; [exact Hpos | simpl; lia | simpl; lia].
    + apply Forall_addToCart; [exact Hcatalog | simpl; auto | simpl; auto].
  - (* heart *)
    constructor; simpl; try assumption.
    + now apply NoDup_toggleFavorite.
    + apply Forall_forall. intros i Hi.
      apply favorites_toggleFavorite in Hi as [[-> _]|[_ Hi]].
      * now apply in_map, Hshown.
      * revert i Hi. now apply Forall_forall.
  - (* minus *)
    rewrite updateQuantity_frame. apply setCart_invariant; [exact Hinv | | |].
    + now apply distinctLines_updateQuantity.
    + apply Forall_updateQuantity; [exact Hpos|]. simpl.
      specialize (Hquantity line Hoffered). lia.
    + apply Forall_updateQuantity; [exact Hcatalog | simpl; auto].
  - (* plus *)
    rewrite updateQuantity_frame. apply setCart_invariant; [exact Hinv | | |].
    + now apply distinctLines_updateQuantity.
    + apply Forall_updateQuantity; [exact Hpos|]. simpl.
      specialize (Hquantity line Hoffered). lia.
    + apply Forall_updateQuantity; [exact Hcatalog | simpl; auto].
  - (* cross *)
    constructor; simpl; try assumption.
    + now apply distinctLines_filter.
    + now apply Forall_filter.
    + now apply Forall_filter.
Qed.

Lemma reachable_invariant (localeCompare : string -> string -> Q)
    (menuData : MenuData) (st : AppState) :
  reachable localeCompare menuData st -> sessionInvariant menuData st.
Proof.
  induction 1 as [|st e _ IH Hoffered].
  - apply mount_invariant.
  - now apply handle_invariant with localeCompare.
Qed.

Lemma Demo_session_reachable :
  reachable codeUnitCompare Demo.menuData Demo.session.
Proof.
  unfold Demo.session, Demo.clicks, run. cbn [fold_left].
  repeat (apply reachable_step; [|cbv; tauto]).
  apply reachable_mount.
Qed.

Lemma totalItems_at_least_length (c : list CartItem) :
  Forall (fun line => 1 <= quantity line) c ->
  Z.of_nat (List.length c) <= sumZ (map quantity c).
Proof.
  induction 1 as [|line c Hline _ IH]; simpl; [lia|].
  rewrite Zpos_P_of_succ_nat. lia.
Qed.


(** X1: in every state of a session the cart has one line per item id and
    every line has a quantity of at least 1: the controls of the page never
    store a zero or negative quantity. *)
Theorem session_quantities_positive (localeCompare : string -> string -> Q)
    (menuData : MenuData) (st : AppState) :
  reachable localeCompare menuData st ->
  distinctLines (cart st) /\
  (forall line, In line (cart st) -> 1 <= quantity line).
Proof.
  intros Hreach. apply reachable_invariant in Hreach as [].
  split; [assumption | now apply Forall_forall].
Qed.

Lemma session_quantities_positive_witness :
  cart Demo.session = [mkCartItem Sample.margherita 2] /\
  distinctLines (cart Demo.session).
Proof.
  split; [reflexivity|].
  exact (proj1 (session_quantities_positive codeUnitCompare Demo.menuData
                  Demo.session Demo_session_reachable)).
Defined.

(** X2: in every state of a session the badge in the header (shown when
    [getTotalItems() > 0]) and the floating cart button (shown when
    [cart.length > 0]) are shown together, and the count on them is at
    least the number of lines. *)
Theorem session_badges_agree (localeCompare : string -> string -> Q)
    (menuData : MenuData) (st : AppState) :
  reachable localeCompare menuData st ->
  showsHeaderBadge st = showsFloatingButton st /\
  Z.of_nat (List.length (cart st)) <= getTotalItems st.
Proof.
  intros Hreach. apply reachable_invariant in Hreach as [_ _ _ Hpos _ _ _ _ _].
  apply totalItems_at_least_length in Hpos.
  rewrite <- getTotalItems_sum in Hpos. split; [|exact Hpos].
  unfold showsHeaderBadge, showsFloatingButton.
  destruct (cart st) as [|line c] eqn:Hcart.
  - unfold getTotalItems. rewrite Hcart. reflexivity.
  - simpl List.length in *. cbn [Nat.ltb Nat.leb]. apply Z.ltb_lt. lia.
Qed.

Lemma session_badges_agree_witness :
  showsHeaderBadge Demo.session = true /\ showsFloatingButton Demo.session = true.
Proof.
  destruct (session_badges_agree codeUnitCompare Demo.menuData Demo.session
              Demo_session_reachable) as [H _].
  split; [reflexivity | rewrite <- H; reflexivity].
Defined.



(** X4: in every state of a session the favorites hold no id twice, and
    only ids of catalog items. *)
Theorem session_favorites (localeCompare : string -> string -> Q)
    (menuData : MenuData) (st : AppState) :
  reachable localeCompare menuData st ->
  NoDup (favorites st) /\
  (forall i, In i (favorites st) -> In i (map id (md_items menuData))).
Proof.
  intros Hreach. apply reachable_invariant in Hreach as [].
  split; [assumption | now apply Forall_forall].
Qed.

Lemma session_favorites_witness :
  favorites Demo.session = [3] /\ NoDup (favorites Demo.session).
Proof.
  split; [reflexivity|].
  exact (proj1 (session_favorites codeUnitCompare Demo.menuData Demo.session
                  Demo_session_reachable)).
Defined.

(** X5: a session never changes the catalog or the category list; its sort
    key is one of the five entries of the sort menu, so the default branch
    of the comparator is taken for the key "name" only; and the selected
    category is "all" or the id of a category. *)
Theorem session_view_state (localeCompare : string -> string -> Q)
    (menuData : MenuData) (st : AppState) :
  reachable localeCompare menuData st ->
  items st = md_items menuData /\
  categories st = md_categories menuData /\
  In (sortBy st) sortOptions /\
  (sortBy st <> "price-low"%string -> sortBy st <> "price-high"%string ->
   sortBy st <> "rating"%string -> sortBy st <> "popular"%string ->
   sortBy st = "name"%string) /\
  (selectedCategory st = "all"%string \/
   In (selectedCategory st) (map cat_id (md_categories menuData))).
Proof.
  intros Hreach.
  apply reachable_invariant in Hreach as [Hitems Hcats _ _ _ _ _ Hsort Hcat].
  repeat (split; [assumption|]). split; [|exact Hcat].
  unfold sortOptions in Hsort. simpl in Hsort.
  intros H1 H2 H3 H4. intuition congruence.
Qed.

Lemma session_view_state_witness :
  items Demo.session = Sample.catalog /\ In (sortBy Demo.session) sortOptions.
Proof.
  destruct (session_view_state codeUnitCompare Demo.menuData Demo.session
              Demo_session_reachable) as [H1 [_ [H3 _]]].
  split; [exact H1 | exact H3].
Defined.

(** ** Cart manager, continued *)

Lemma setCart_same (st : AppState) : setCart (fun _ => cart st) st = st.
Proof. now destruct st. Qed.

Lemma setCart_ext (f g : list CartItem -> list CartItem) (st : AppState) :
  f (cart st) = g (cart st) -> setCart f st = setCart g st.
Proof. unfold setCart. now intros ->. Qed.

Lemma addToCart_frame (item : MenuItem) (st : AppState) :
  addToCart item st = setCart (fun _ => cart (addToCart item st)) st.
Proof. reflexivity. Qed.

Lemma CartItem_eta (line : CartItem) :
  mkCartItem (item_of line) (quantity line) = line.
Proof. now destruct line. Qed.

Lemma lineFor_remove_other (itemId other : Z) (c : list CartItem) :
  other <> itemId ->
  lineFor other (filter (fun line => negb (cart_id line =? itemId)) c) =
  lineFor other c.
Proof.
  intros Hne. unfold lineFor. induction c as [|l c IH]; simpl; [reflexivity|].
  destruct (cart_id l =? itemId) eqn:Hid; simpl.
  - apply Z.eqb_eq in Hid.
    now rewrite IH, (proj2 (Z.eqb_neq (cart_id l) other)) by congruence.
  - now rewrite IH.
Qed.

Lemma remove_absent (itemId : Z) (c : list CartItem) :
  ~ In itemId (map cart_id c) ->
  filter (fun line => negb (cart_id line =? itemId)) c = c.
Proof.
  induction c as [|l c IH]; simpl; intros H; [reflexivity|].
  rewrite (proj2 (Z.eqb_neq (cart_id l) itemId)) by tauto.
  simpl. now rewrite IH by tauto.
Qed.

Lemma remove_after_update (itemId : Z) (newQuantity : CartItem -> Z)
    (c : list CartItem) :
  filter (fun line => negb (cart_id line =? itemId))
    (map (fun line =>
            if cart_id line =? itemId
            then mkCartItem (item_of line) (newQuantity line)
            else line) c) =
  filter (fun line => negb (cart_id line =? itemId)) c.
Proof.
  induction c as [|l c IH]; simpl; [reflexivity|]. rewrite IH.
  destruct (cart_id l =? itemId) eqn:Hid.
  - unfold cart_id in *. simpl. now rewrite Hid.
  - now rewrite Hid.
Qed.

(** X6: for a row of a cart with one line per id, the plus button does what
    "Add to Cart" does on the card of the same item (unless the quantity
    shown is -1, when plus asks for quantity 0 and removes the line). *)
Theorem plusClick_is_addClick (line : CartItem) (st : AppState) :
  distinctLines (cart st) ->
  In line (cart st) ->
  quantity line + 1 <> 0 ->
  handle (PlusClick line) st = handle (AddClick (item_of line)) st.
Proof.
  intros Hdistinct Hin Hq. cbn [handle].
  rewrite updateQuantity_frame, addToCart_frame. apply setCart_ext.
  pose proof (lineFor_In _ _ Hdistinct Hin) as Hline.
  destruct (lineFor_split _ _ _ Hdistinct Hline) as [before [after [Hc [Hb Ha]]]].
  rewrite cart_updateQuantity_nonzero by exact Hq.
  rewrite cart_addToCart_present
    by (fold (cart_id line); rewrite Hline; discriminate).
  fold (cart_id line). rewrite Hc.
  rewrite (update_single (cart_id line) (fun _ => quantity line + 1))
    by (reflexivity || assumption).
  now rewrite (update_single (cart_id line) (fun l => quantity l + 1))
    by (reflexivity || assumption).
Qed.

Lemma plusClick_is_addClick_witness :
  handle (PlusClick (mkCartItem Sample.margherita 2)) Demo.session
  = handle (AddClick Sample.margherita) Demo.session.
Proof.
  apply (plusClick_is_addClick (mkCartItem Sample.margherita 2) Demo.session).
  - unfold distinctLines. simpl. repeat constructor. simpl. tauto.
  - simpl. now left.
  - discriminate.
Defined.

Lemma updateQuantity_single (st : AppState) (before : list CartItem)
    (line : CartItem) (after : list CartItem) (n : Z) :
  cart st = before ++ line :: after ->
  ~ In (cart_id line) (map cart_id before) ->
  ~ In (cart_id line) (map cart_id after) ->
  n <> 0 ->
  updateQuantity (cart_id line) n st =
  setCart (fun _ => before ++ mkCartItem (item_of line) n :: after) st.
Proof.
  intros Hc Hb Ha Hn. rewrite updateQuantity_frame. apply setCart_ext.
  rewrite cart_updateQuantity_nonzero, Hc by exact Hn.
  now apply (update_single (cart_id line) (fun _ => n)).
Qed.

(** X7: on a row of a cart with one line per id and a quantity of at least
    1, plus followed by minus on the row as it is then shown gives back the
    state; and minus on a row showing quantity 1 leaves no line for the
    item. *)
Theorem minus_undoes_plus (line : CartItem) (st : AppState) :
  distinctLines (cart st) ->
  In line (cart st) ->
  1 <= quantity line ->
  handle (MinusClick (mkCartItem (item_of line) (quantity line + 1)))
         (handle (PlusClick line) st) = st /\
  (quantity line = 1 ->
   lineFor (cart_id line) (cart (handle (MinusClick line) st)) = None).
Proof.
  intros Hdistinct Hin Hq. split.
  - pose proof (lineFor_In _ _ Hdistinct Hin) as Hline.
    destruct (lineFor_split _ _ _ Hdistinct Hline) as [before [after [Hc [Hb Ha]]]].
    cbn [handle].
    rewrite (updateQuantity_single st before line after (quantity line + 1))
      by (assumption || lia).
    set (shown := mkCartItem (item_of line) (quantity line + 1)).
    rewrite (updateQuantity_single _ before shown after (quantity shown - 1))
      by (reflexivity || assumption || (simpl; lia)).
    simpl. replace (quantity line + 1 - 1) with (quantity line) by lia.
    rewrite CartItem_eta, <- Hc. now destruct st.
  - intros Hone. cbn [handle]. rewrite Hone. simpl.
    apply lineFor_None. intros H. apply in_map_iff in H as [l [Hid Hl]].
    apply filter_In in Hl as [_ Hl]. apply negb_true_iff, Z.eqb_neq in Hl.
    contradiction.
Qed.

Lemma minus_undoes_plus_witness :
  handle (MinusClick (mkCartItem Sample.margherita 3))
         (handle (PlusClick (mkCartItem Sample.margherita 2)) Demo.session)
  = Demo.session.
Proof.
  apply (minus_undoes_plus (mkCartItem Sample.margherita 2) Demo.session).
  - unfold distinctLines. simpl. repeat constructor. simpl. tauto.
  - simpl. now left.
  - simpl. lia.
Defined.

Lemma remove_single (itemId : Z) (before after : list CartItem) (line : CartItem) :
  cart_id line = itemId ->
  ~ In itemId (map cart_id before) -> ~ In itemId (map cart_id after) ->
  filter (fun l => negb (cart_id l =? itemId)) (before ++ line :: after) =
  before ++ after.
Proof.
  intros Hid Hb Ha. rewrite filter_app. simpl.
  rewrite (proj2 (Z.eqb_eq _ _) Hid). simpl.
  now rewrite !remove_absent by assumption.
Qed.

Lemma remove_remove (i j : Z) (c : list CartItem) :
  filter (fun l => negb (cart_id l =? i)) (filter (fun l => negb (cart_id l =? j)) c) =
  filter (fun l => negb (cart_id l =? j)) (filter (fun l => negb (cart_id l =? i)) c).
Proof.
  induction c as [|l c IH]; simpl; [reflexivity|].
  destruct (cart_id l =? j) eqn:Hj, (cart_id l =? i) eqn:Hi; simpl;
    rewrite ?Hi, ?Hj; simpl; now rewrite IH.
Qed.

Lemma removed_is_absent (itemId : Z) (c : list CartItem) :
  ~ In itemId (map cart_id (filter (fun l => negb (cart_id l =? itemId)) c)).
Proof.
  intros H. apply in_map_iff in H as [l [Hid Hl]].
  apply filter_In in Hl as [_ Hl]. apply negb_true_iff, Z.eqb_neq in Hl.
  contradiction.
Qed.

Lemma updateQuantity_twice_frame (i j m n : Z) (st : AppState) :
  updateQuantity i m (updateQuantity j n st) =
  setCart (fun _ => cart (updateQuantity i m (updateQuantity j n st))) st.
Proof. unfold updateQuantity. now destruct (m =? 0), (n =? 0). Qed.

(** X8: [removeFromCart] leaves no line for the id, whatever its quantity
    was; the lines of the other ids are found as before; the new cart is a
    subsequence of the old one and holds exactly the lines of other ids. *)
Theorem removeFromCart_contract (itemId : Z) (st : AppState) :
  let c' := cart (removeFromCart itemId st) in
  lineFor itemId c' = None /\
  (forall other, other <> itemId -> lineFor other c' = lineFor other (cart st)) /\
  Subsequence c' (cart st) /\
  (forall line, In line c' <-> In line (cart st) /\ cart_id line <> itemId).
Proof.
  simpl. split; [|split; [|split]].
  - apply lineFor_None, removed_is_absent.
  - intros other Hne. now apply lineFor_remove_other.
  - apply Subsequence_filter.
  - intros line. now rewrite filter_In, negb_true_iff, Z.eqb_neq.
Qed.

(** X9: [removeFromCart] on an id without a line changes nothing; doing it
    twice is doing it once; and two removals commute. *)
Theorem removeFromCart_algebra (i j : Z) (st : AppState) :
  (lineFor i (cart st) = None -> removeFromCart i st = st) /\
  removeFromCart i (removeFromCart i st) = removeFromCart i st /\
  removeFromCart i (removeFromCart j st) = removeFromCart j (removeFromCart i st).
Proof.
  unfold removeFromCart, setCart. simpl. split; [|split].
  - intros Hnone. apply lineFor_None in Hnone.
    rewrite remove_absent by exact Hnone. now destruct st.
  - now rewrite (remove_absent i (filter _ (cart st))) by apply removed_is_absent.
  - now rewrite remove_remove.
Qed.

(** X10: removing an item after adding it, once or twice, gives the state
    that removing it alone gives: the whole line goes, not one unit; so
    does [updateQuantity] with 0; and for an item that had no line, adding
    then removing gives back the state. *)
Theorem remove_after_add (item : MenuItem) (st : AppState) :
  removeFromCart (id item) (addToCart item st) = removeFromCart (id item) st /\
  removeFromCart (id item) (addToCart item (addToCart item st))
  = removeFromCart (id item) st /\
  updateQuantity (id item) 0 (addToCart item st) = removeFromCart (id item) st /\
  (lineFor (id item) (cart st) = None ->
   removeFromCart (id item) (addToCart item st) = st).
Proof.
  assert (Hone : forall s, removeFromCart (id item) (addToCart item s)
                           = removeFromCart (id item) s).
  { intros s. unfold removeFromCart at 1. rewrite addToCart_frame.
    unfold removeFromCart, setCart. cbn [items categories cart selectedCategory
      searchTerm sortBy isCartOpen favorites]. f_equal.
    destruct (lineFor (id item) (cart s)) as [line|] eqn:Hline.
    - rewrite cart_addToCart_present by (rewrite Hline; discriminate).
      apply (remove_after_update (id item) (fun l => quantity l + 1)).
    - rewrite cart_addToCart_absent by exact Hline.
      rewrite filter_app. simpl. unfold cart_id at 2. simpl.
      rewrite Z.eqb_refl. simpl. apply app_nil_r. }
  split; [apply Hone|]. split; [now rewrite !Hone|]. split; [apply Hone|].
  intros Hnone. rewrite Hone. unfold removeFromCart, setCart.
  apply lineFor_None in Hnone. rewrite remove_absent by exact Hnone.
  now destruct st.
Qed.

(** X11: on a cart with one line per id, [addToCart] raises the item count
    by exactly 1; and for an item without a line the total becomes the old
    total plus the price of the item times 1, in one rounded addition. *)
Theorem addToCart_totals (item : MenuItem) (st : AppState) :
  distinctLines (cart st) ->
  getTotalItems (addToCart item st) = getTotalItems st + 1 /\
  (lineFor (id item) (cart st) = None ->
   Binary64.getTotalPrice (addToCart item st) =
   SFadd Binary64.prec Binary64.emax
         (Binary64.getTotalPrice st) (linePrice64 (mkCartItem item 1))).
Proof.
  intros Hdistinct. split.
  - rewrite !getTotalItems_sum.
    destruct (lineFor (id item) (cart st)) as [line|] eqn:Hline.
    + destruct (lineFor_split _ _ _ Hdistinct Hline) as [before [after [Hc [Hb Ha]]]].
      apply lineFor_Some in Hline as [_ Hid].
      rewrite cart_addToCart_present
        by (rewrite Hc, lineFor_None, map_app, in_app_iff; simpl; tauto).
      rewrite Hc.
      rewrite (update_single (id item) (fun l => quantity l + 1)) by assumption.
      rewrite !map_app, !sumZ_app. simpl. lia.
    + rewrite cart_addToCart_absent by exact Hline.
      rewrite !map_app, !sumZ_app. simpl. lia.
  - intros Hline. rewrite !getTotalPrice64_accumulated.
    rewrite cart_addToCart_absent by exact Hline.
    now rewrite map_app, rev_app_distr.
Qed.

Lemma addToCart_totals_witness :
  getTotalItems (addToCart Sample.margherita Demo.session) = 3 /\
  getTotalItems (addToCart Sample.burger Demo.session) = 3.
Proof.
  assert (H : distinctLines (cart Demo.session)).
  { unfold distinctLines. simpl. repeat constructor. simpl. tauto. }
  split.
  - exact (proj1 (addToCart_totals Sample.margherita Demo.session H)).
  - exact (proj1 (addToCart_totals Sample.burger Demo.session H)).
Defined.

(** X12: on a cart with one line per id that has a line for the id,
    [updateQuantity] with any [n], zero and negative included, changes the
    item count by [n] minus the old quantity; without a line for the id it
    changes nothing. *)
Theorem updateQuantity_totals (itemId n : Z) (st : AppState) :
  distinctLines (cart st) ->
  (forall line,
      lineFor itemId (cart st) = Some line ->
      getTotalItems (updateQuantity itemId n st)
      = getTotalItems st + (n - quantity line)) /\
  (lineFor itemId (cart st) = None -> updateQuantity itemId n st = st).
Proof.
  intros Hdistinct. split.
  - intros line Hline. rewrite !getTotalItems_sum.
    destruct (lineFor_split _ _ _ Hdistinct Hline) as [before [after [Hc [Hb Ha]]]].
    apply lineFor_Some in Hline as [_ Hid].
    assert (Hcart : cart (updateQuantity itemId n st) =
                    if n =? 0 then before ++ after
                    else before ++ mkCartItem (item_of line) n :: after).
    { destruct (n =? 0) eqn:Hn.
      - apply Z.eqb_eq in Hn. subst n. simpl. rewrite Hc.
        now apply remove_single.
      - apply Z.eqb_neq in Hn. rewrite cart_updateQuantity_nonzero, Hc by exact Hn.
        now apply (update_single itemId (fun _ => n)). }
    rewrite Hcart, Hc.
    destruct (n =? 0) eqn:Hn.
    + apply Z.eqb_eq in Hn. subst n.
      rewrite !map_app, !sumZ_app. simpl. lia.
    + rewrite !map_app, !sumZ_app. simpl. lia.
  - intros Hnone. apply lineFor_None in Hnone.
    rewrite updateQuantity_frame.
    transitivity (setCart (fun _ => cart st) st); [|apply setCart_same].
    apply setCart_ext. destruct (Z.eq_dec n 0) as [->|Hn].
    + simpl. now apply remove_absent.
    + rewrite cart_updateQuantity_nonzero by exact Hn.
      now apply (update_others itemId (fun _ => n)).
Qed.

Lemma updateQuantity_totals_witness :
  getTotalItems (updateQuantity 1 0 Demo.session) = 0 /\
  getTotalItems (updateQuantity 1 5 Demo.session) = 5.
Proof.
  assert (H : distinctLines (cart Demo.session)).
  { unfold distinctLines. simpl. repeat constructor. simpl. tauto. }
  split.
  - exact (proj1 (updateQuantity_totals 1 0 Demo.session H) _ eq_refl).
  - exact (proj1 (updateQuantity_totals 1 5 Demo.session H) _ eq_refl).
Defined.

(** X13: the last quantity written to a line wins, as long as the earlier
    one was not 0; after a 0 the line is gone and a later quantity does not
    bring it back. *)
Theorem updateQuantity_last_wins (itemId m n : Z) (st : AppState) :
  (n <> 0 ->
   updateQuantity itemId m (updateQuantity itemId n st) = updateQuantity itemId m st) /\
  updateQuantity itemId m (updateQuantity itemId 0 st) = updateQuantity itemId 0 st.
Proof.
  split.
  - intros Hn.
    etransitivity; [apply updateQuantity_twice_frame|].
    symmetry. etransitivity; [apply updateQuantity_frame|]. symmetry.
    apply setCart_ext.
    destruct (Z.eq_dec m 0) as [->|Hm].
    + simpl. rewrite cart_updateQuantity_nonzero by exact Hn.
      apply (remove_after_update itemId (fun _ => n)).
    + rewrite !cart_updateQuantity_nonzero by assumption.
      rewrite map_map. apply map_ext. intros line.
      destruct (cart_id line =? itemId) eqn:Hid.
      * unfold cart_id in *. simpl. now rewrite Hid.
      * now rewrite Hid.
  - etransitivity; [apply updateQuantity_twice_frame|].
    symmetry. etransitivity; [apply updateQuantity_frame|]. symmetry.
    apply setCart_ext.
    destruct (Z.eq_dec m 0) as [->|Hm].
    + simpl. now rewrite remove_absent by apply removed_is_absent.
    + rewrite cart_updateQuantity_nonzero by exact Hm.
      apply (update_others itemId (fun _ => m)). simpl. apply removed_is_absent.
Qed.

(** ** Favorites, continued *)

Lemma unlike_absent (itemId : Z) (l : list Z) :
  ~ In itemId l -> filter (fun i => negb (i =? itemId)) l = l.
Proof.
  induction l as [|x l IH]; simpl; intros H; [reflexivity|].
  rewrite (proj2 (Z.eqb_neq x itemId)) by tauto. simpl. now rewrite IH by tauto.
Qed.

(** X14: on favorites without a repeated id, a toggle keeps them without
    one, and two toggles of an id give a permutation of the favorites:
    the same array when the id was not liked, the array with the id moved
    to the end when it was. *)
Theorem toggleFavorite_twice (itemId : Z) (st : AppState) :
  NoDup (favorites st) ->
  let twice := toggleFavorite itemId (toggleFavorite itemId st) in
  NoDup (favorites (toggleFavorite itemId st)) /\
  Permutation (favorites twice) (favorites st) /\
  (~ In itemId (favorites st) -> twice = st) /\
  (In itemId (favorites st) ->
   favorites twice = filter (fun i => negb (i =? itemId)) (favorites st) ++ [itemId]).
Proof.
  intros Hnodup twice.
  split; [now apply NoDup_toggleFavorite|]. split; [|split].
  - apply NoDup_Permutation.
    + now apply NoDup_toggleFavorite, NoDup_toggleFavorite.
    + exact Hnodup.
    + intros i. unfold twice. rewrite !favorites_toggleFavorite.
      destruct (Z.eq_dec i itemId) as [->|Hne]; [|tauto].
      destruct (in_dec Z.eq_dec itemId (favorites st)); tauto.
  - intros Habsent. unfold twice, toggleFavorite, setFavorites. simpl.
    assert (Hinc : JS.Array_includes Z.eqb (favorites st) itemId = false).
    { apply not_true_iff_false. now rewrite Array_includes_In. }
    rewrite Hinc.
    assert (Hinc' : JS.Array_includes Z.eqb (favorites st ++ [itemId]) itemId = true).
    { apply Array_includes_In, in_app_iff. right. now left. }
    rewrite Hinc', filter_app, unlike_absent by exact Habsent. simpl.
    rewrite Z.eqb_refl. simpl. rewrite app_nil_r. now destruct st.
  - intros Hpresent. unfold twice, toggleFavorite, setFavorites. simpl.
    apply Array_includes_In in Hpresent. rewrite Hpresent.
    assert (Hinc : JS.Array_includes Z.eqb
                     (filter (fun i => negb (i =? itemId)) (favorites st)) itemId
                   = false).
    { apply not_true_iff_false. rewrite Array_includes_In, filter_In.
      rewrite Z.eqb_refl. simpl. intros [_ H]. discriminate H. }
    now rewrite Hinc.
Qed.

Lemma toggleFavorite_twice_witness :
  toggleFavorite 2 (toggleFavorite 2 Demo.session) = Demo.session /\
  favorites (toggleFavorite 3 (toggleFavorite 3 Demo.session)) = [3].
Proof.
  assert (H : NoDup (favorites Demo.session)).
  { simpl. repeat constructor. simpl. tauto. }
  destruct (toggleFavorite_twice 2 Demo.session H) as [_ [_ [Habsent _]]].
  destruct (toggleFavorite_twice 3 Demo.session H) as [_ [_ [_ Hpresent]]].
  split.
  - apply Habsent. simpl. intuition discriminate.
  - rewrite Hpresent; [reflexivity | simpl; now left].
Defined.

(** ** Catalog filter, continued *)

Local Open Scope string_scope.

Lemma string_app_assoc (a b c : string) : (a ++ b) ++ c = a ++ b ++ c.
Proof. induction a as [|x a IH]; simpl; [reflexivity | now rewrite IH]. Qed.

Lemma caseInsensitiveSubstring_trans (t t' s : string) :
  caseInsensitiveSubstring t t' -> caseInsensitiveSubstring t' s ->
  caseInsensitiveSubstring t s.
Proof.
  intros [b' [m' [a' [-> Hm']]]] [b [m [a [-> Hm]]]].
  apply asciiLowerCase_equalIgnoringCase in Hm, Hm'.
  rewrite !asciiLowerCase_app in Hm.
  apply asciiLowerCase_app_inv in Hm as [m1 [m23 [-> [_ Hm]]]].
  apply asciiLowerCase_app_inv in Hm as [m2 [m3 [-> [Hm2 _]]]].
  exists (b ++ m1), m2, (m3 ++ a). split.
  - now rewrite !string_app_assoc.
  - apply asciiLowerCase_equalIgnoringCase. now rewrite Hm2.
Qed.

Lemma matchesSearch_narrow (t t' : string) (item : MenuItem) :
  JS.isAscii t = true -> JS.isAscii t' = true ->
  JS.isAscii (name item) = true -> JS.isAscii (description item) = true ->
  caseInsensitiveSubstring t t' ->
  matchesSearch t' item = true -> matchesSearch t item = true.
Proof.
  intros Ht Ht' Hn Hd Hsub. unfold matchesSearch.
  rewrite !orb_true_iff, !includes_caseInsensitive by assumption.
  intros [H|H]; [left | right]; now apply caseInsensitiveSubstring_trans with t'.
Qed.

Local Close Scope string_scope.

Lemma filter_and {A : Type} (p q : A -> bool) (l : list A) :
  filter (fun x => p x && q x) l = filter q (filter p l).
Proof.
  induction l as [|x l IH]; simpl; [reflexivity|].
  destruct (p x); simpl; [|exact IH].
  destruct (q x); now rewrite IH.
Qed.

(** Every search result is cut out of the result for the empty text. *)
Lemma filteredItems_text (text' : string) (st : AppState) :
  filteredItems (setSearchTerm text' st) =
  filter (matchesSearch text') (filteredItems (setSearchTerm "" st)).
Proof.
  unfold filteredItems. simpl. rewrite <- filter_and.
  apply filter_ext. intros item. unfold filterPredicate.
  now rewrite matchesSearch_empty, andb_true_r.
Qed.

Lemma filteredItems_search (text' : string) (st : AppState) :
  Forall (fun item => JS.isAscii (name item) = true /\
                      JS.isAscii (description item) = true) (items st) ->
  JS.isAscii (searchTerm st) = true -> JS.isAscii text' = true ->
  caseInsensitiveSubstring (searchTerm st) text' ->
  filteredItems (setSearchTerm text' st) =
  filter (matchesSearch text') (filteredItems st).
Proof.
  intros Hitems Ht Ht' Hsub. unfold filteredItems. simpl. rewrite <- filter_and.
  apply filter_ext_in. intros item Hin. unfold filterPredicate.
  rewrite Forall_forall in Hitems. destruct (Hitems item Hin) as [Hn Hd].
  destruct (matchesCategory (selectedCategory st) item); simpl; [|reflexivity].
  destruct (matchesSearch text' item) eqn:Hs; [|now rewrite andb_false_r].
  now rewrite (matchesSearch_narrow _ _ _ Ht Ht' Hn Hd Hsub Hs).
Qed.

Lemma filteredItems_category (c : string) (st : AppState) :
  selectedCategory st = "all"%string ->
  filteredItems (setSelectedCategory c st) =
  filter (matchesCategory c) (filteredItems st).
Proof.
  intros Hall. unfold filteredItems. simpl. rewrite <- filter_and.
  apply filter_ext. intros item. unfold filterPredicate, matchesCategory at 2.
  rewrite Hall. simpl. apply andb_comm.
Qed.

(** Outside ASCII, typing one more character can bring a card back: "ΑΣ"
    shows nothing of a catalog holding "ΑΣΑ", and "ΑΣΑ" shows it. *)
Lemma typing_more_can_add_a_card :
  filteredItems Corner.sigmaSearch = [] /\
  filteredItems (setSearchTerm "ΑΣΑ" Corner.sigmaSearch) = [Corner.sigma].
Proof. split; now vm_compute. Qed.

(** X15: narrowing the filter only takes items away.  A category chosen
    while "all" is selected keeps the shown items of that category; any
    search text keeps some of the items shown for the empty text; and when
    the catalog and the texts are ASCII, a search text that contains the
    current one up to case, such as the current text with more characters
    typed, keeps the shown items that match it. *)
Theorem filter_narrows (st : AppState) :
  (forall c,
      selectedCategory st = "all"%string ->
      filteredItems (setSelectedCategory c st)
      = filter (matchesCategory c) (filteredItems st) /\
      Subsequence (filteredItems (setSelectedCategory c st)) (filteredItems st)) /\
  (forall text',
      Subsequence (filteredItems (setSearchTerm text' st))
                  (filteredItems (setSearchTerm "" st))) /\
  (Forall (fun item => JS.isAscii (name item) = true /\
                       JS.isAscii (description item) = true) (items st) ->
   JS.isAscii (searchTerm st) = true ->
   forall text',
     JS.isAscii text' = true ->
     caseInsensitiveSubstring (searchTerm st) text' ->
     filteredItems (setSearchTerm text' st)
     = filter (matchesSearch text') (filteredItems st) /\
     Subsequence (filteredItems (setSearchTerm text' st)) (filteredItems st)).
Proof.
  split; [|split].
  - intros c Hall. rewrite filteredItems_category by exact Hall.
    split; [reflexivity | apply Subsequence_filter].
  - intros text'. rewrite filteredItems_text. apply Subsequence_filter.
  - intros Hitems Ht text' Ht' Hsub.
    rewrite filteredItems_search by assumption.
    split; [reflexivity | apply Subsequence_filter].
Qed.

Lemma filter_narrows_witness :
  filteredItems (setSearchTerm "Pizza" (Sample.browsing "all" "piz" "popular"))
  = filter (matchesSearch "Pizza")
           (filteredItems (Sample.browsing "all" "piz" "popular")).
Proof.
  apply (proj2 (proj2 (filter_narrows (Sample.browsing "all" "piz" "popular")))).
  - repeat constructor.
  - reflexivity.
  - reflexivity.
  - exists ""%string, "Piz"%string, "za"%string. split; [reflexivity|].
    now apply asciiLowerCase_equalIgnoringCase.
Defined.

(** X16: "No items found" is shown exactly when no item of the catalog
    passes the category test with a lowercase name or description that
    contains the lowercase search text; for an ASCII catalog and text,
    exactly when no item satisfies the category test and the
    case-insensitive search test. *)
Theorem noItemsFound_iff (localeCompare : string -> string -> Q) (st : AppState) :
  (showsNoItemsFound localeCompare st = true <->
   (forall item,
       In item (items st) ->
       ~ passesFilter (selectedCategory st) (searchTerm st) item)) /\
  (Forall (fun item => JS.isAscii (name item) = true /\
                       JS.isAscii (description item) = true) (items st) ->
   JS.isAscii (searchTerm st) = true ->
   (showsNoItemsFound localeCompare st = true <->
    (forall item,
        In item (items st) ->
        ~ qualifies (selectedCategory st) (searchTerm st) item))).
Proof.
  assert (Hshown : showsNoItemsFound localeCompare st = true <->
                   (forall item,
                       In item (items st) ->
                       filterPredicate (selectedCategory st) (searchTerm st) item
                       <> true)).
  { unfold showsNoItemsFound. rewrite Nat.eqb_eq, length_zero_iff_nil. split.
    - intros Hnil item Hin Hq.
      assert (H : In item (sortedItems localeCompare st)).
      { apply sortedItems_In. unfold filteredItems. now apply filter_In. }
      rewrite Hnil in H. contradiction.
    - intros Hnone.
      destruct (sortedItems localeCompare st) as [|item l] eqn:Hl; [reflexivity|].
      assert (H : In item (sortedItems localeCompare st)) by (rewrite Hl; now left).
      apply sortedItems_In in H. unfold filteredItems in H.
      apply filter_In in H as [Hin Hq]. now apply Hnone in Hq. }
  split.
  - rewrite Hshown. split; intros H item Hin; specialize (H item Hin);
      now rewrite filterPredicate_passes in *.
  - intros Hitems Ht. rewrite Forall_forall in Hitems. rewrite Hshown.
    split; intros H item Hin; specialize (H item Hin);
      destruct (Hitems item Hin) as [Hn Hd];
      now rewrite (filterPredicate_qualifies _ _ _ Ht Hn Hd) in *.
Qed.

(** ** Categories *)

(** X19: [getCategoryColor] never gives the empty string: it gives the
    default when no category has the id, and otherwise the color of the
    first category with the id, or the default when that color is
    empty. *)
Theorem getCategoryColor_contract (categoryId : string) (st : AppState) :
  let color := getCategoryColor categoryId st in
  color <> ""%string /\
  ((forall cat, In cat (categories st) -> cat_id cat <> categoryId) ->
   color = defaultCategoryColor) /\
  (forall before cat after,
      categories st = before ++ cat :: after ->
      cat_id cat = categoryId ->
      (forall c, In c before -> cat_id c <> categoryId) ->
      color = if String.eqb (cat_color cat) "" then defaultCategoryColor
              else cat_color cat).
Proof.
  simpl. unfold getCategoryColor. split; [|split].
  - destruct (find _ (categories st)) as [cat|]; [|discriminate].
    destruct (String.eqb (cat_color cat) "") eqn:Hc; [discriminate|].
    now apply String.eqb_neq.
  - intros Hnone.
    destruct (find _ (categories st)) as [cat|] eqn:Hfind; [|reflexivity].
    apply find_some in Hfind as [Hin Hid]. apply String.eqb_eq in Hid.
    now apply Hnone in Hin.
  - intros before cat after -> Hid Hbefore.
    induction before as [|c before IH]; simpl.
    + now rewrite (proj2 (String.eqb_eq _ _) Hid).
    + rewrite (proj2 (String.eqb_neq (cat_id c) categoryId))
        by (apply Hbefore; now left).
      apply IH. intros c' Hc'. apply Hbefore. now right.
Qed.

Lemma getCategoryColor_examples :
  getCategoryColor "pizza" Demo.session = "from-red-400 to-orange-500"%string /\
  getCategoryColor "salads" Demo.session = defaultCategoryColor /\
  getCategoryColor "burgers" Demo.session = defaultCategoryColor.
Proof. repeat split. Qed.

(** ** The render over the heap *)

(** X20: one render with the catalog at [itemsRef] makes two new arrays,
    different from each other and from every array there was, holding the
    filtered and the sorted view; every array there was, the catalog
    included, has the contents it had. *)
Theorem renderViews_contract (localeCompare : string -> string -> Q)
    (st : AppState) (h : Heap.heap MenuItem) (itemsRef : Heap.ref) :
  (itemsRef < List.length h)%nat ->
  Heap.contents h itemsRef = items st ->
  let result := renderViews localeCompare st itemsRef h in
  let filteredRef := fst (fst result) in
  let sortedRef := snd (fst result) in
  let h' := snd result in
  Heap.contents h' filteredRef = filteredItems st /\
  Heap.contents h' sortedRef = sortedItems localeCompare st /\
  filteredRef <> sortedRef /\
  (List.length h <= filteredRef)%nat /\ (List.length h <= sortedRef)%nat /\
  List.length h' = (List.length h + 2)%nat /\
  (forall r, (r < List.length h)%nat -> Heap.contents h' r = Heap.contents h r).
Proof.
  intros Hvalid Hitems. rewrite (renderViews_run _ _ _ _ Hitems). cbn [fst snd].
  split; [|split; [|split; [|split; [|split; [|split]]]]]; try lia.
  - rewrite app_assoc, contents_old by (rewrite length_app; simpl; lia).
    apply contents_new.
  - rewrite app_assoc.
    replace (S (List.length h)) with (List.length (h ++ [filteredItems st]))
      by (rewrite length_app; simpl; lia).
    apply contents_new.
  - rewrite !length_app. simpl. lia.
  - intros r Hr. now apply contents_old.
Qed.

Lemma renderViews_contract_witness :
  Heap.contents (snd (renderViews codeUnitCompare Demo.session 0%nat [Sample.catalog]))
                1%nat
  = Sample.catalog.
Proof.
  exact (proj1 (renderViews_contract codeUnitCompare Demo.session [Sample.catalog]
                  0%nat ltac:(simpl; lia) eq_refl)).
Defined.

(** ** Sort, continued *)

Lemma nonpositive_diff (p q : Q) : (p - q <= 0)%Q <-> (p <= q)%Q.
Proof. now rewrite <- positive_number_false, positive_number_diff_false. Qed.

Lemma positive_diff (p q : Q) : (0 < p - q)%Q <-> (q < p)%Q.
Proof. now rewrite <- positive_number_spec, positive_number_diff. Qed.

Lemma diff_consistent {A : Type} (f : A -> Q) :
  consistentComparison (fun a b => f a - f b)%Q.
Proof.
  split.
  - intros a b H. apply nonpositive_diff, Qlt_le_weak. now apply positive_diff.
  - intros a b c Hab Hbc. cbv beta in *.
    rewrite nonpositive_diff in *. now apply Qle_trans with (f b).
Qed.

Lemma flip_consistent {A : Type} (cmp : A -> A -> Q) :
  consistentComparison cmp -> consistentComparison (fun a b => cmp b a).
Proof.
  intros [Htotal Htrans]. split.
  - intros a b. apply Htotal.
  - intros a b c Hab Hbc. now apply Htrans with b.
Qed.

(** The comparator of the component is consistent for every key, as soon
    as [localeCompare] is. *)
Lemma compareItems_consistent (localeCompare : string -> string -> Q)
    (key : string) :
  consistentComparison localeCompare ->
  consistentComparison (compareItems localeCompare key).
Proof.
  intros [Htotal Htrans]. unfold compareItems.
  destruct (String.eqb key "price-low"); [apply (diff_consistent price)|].
  destruct (String.eqb key "price-high");
    [apply (flip_consistent _ (diff_consistent price))|].
  destruct (String.eqb key "rating");
    [apply (flip_consistent _ (diff_consistent rating))|].
  destruct (String.eqb key "popular");
    [apply (flip_consistent _ (diff_consistent popularRank))|].
  split.
  - intros a b. apply Htotal.
  - intros a b c. apply Htrans.
Qed.

Section SortAndFilter.

Context {A : Type}.
Variable cmp : A -> A -> Q.
Hypothesis cmp_consistent : consistentComparison cmp.

Lemma consistent_sorted (l : list A) :
  StronglySorted (fun a b => cmp a b <= 0)%Q (JS.Array_sort cmp l).
Proof.
  destruct cmp_consistent as [Htotal Htrans]. apply Array_sort_sorted.
  - exact Htrans.
  - intros a b. apply positive_number_false.
  - intros a b H. now apply Htotal, positive_number_spec.
Qed.

Lemma sort_insert_first (x : A) (l : list A) :
  Forall (fun y => cmp x y <= 0)%Q l -> JS.sort_insert cmp x l = x :: l.
Proof.
  destruct 1 as [|y rest Hy _]; [reflexivity|]. simpl.
  now rewrite (proj2 (positive_number_false _) Hy).
Qed.

Lemma sort_insert_filter_commute (p : A -> bool) (x : A) (l : list A) :
  StronglySorted (fun a b => cmp a b <= 0)%Q l ->
  filter p (JS.sort_insert cmp x l) =
  if p x then JS.sort_insert cmp x (filter p l) else filter p l.
Proof.
  destruct cmp_consistent as [_ Htrans].
  induction 1 as [|y l Hl IH Hy].
  - simpl. now destruct (p x).
  - cbn [JS.sort_insert].
    destruct (JS.positive_number (cmp x y)) eqn:Hxy.
    + cbn [filter]. rewrite IH.
      destruct (p x), (p y); try reflexivity.
      cbn [JS.sort_insert]. now rewrite Hxy.
    + apply positive_number_false in Hxy.
      change (filter p (x :: y :: l))
        with (if p x then x :: filter p (y :: l) else filter p (y :: l)).
      destruct (p x); [|reflexivity].
      symmetry. apply sort_insert_first, Forall_filter.
      constructor; [exact Hxy|].
      eapply Forall_impl; [|exact Hy]. intros z Hz. now apply Htrans with y.
Qed.

(** Sorting the kept elements is keeping the sorted ones. *)
Lemma Array_sort_filter (p : A -> bool) (l : list A) :
  JS.Array_sort cmp (filter p l) = filter p (JS.Array_sort cmp l).
Proof.
  induction l as [|x l IH]; [reflexivity|].
  cbn [JS.Array_sort filter].
  rewrite sort_insert_filter_commute by apply consistent_sorted.
  destruct (p x); [|exact IH]. cbn [JS.Array_sort]. now rewrite IH.
Qed.

End SortAndFilter.

(** X17: the sort keeps the input order of items that are equal under the
    key: of equal price under "price-low" and "price-high", of equal
    rating under "rating", and of the same name under the default branch
    (for a consistent [localeCompare]). *)
Theorem sortedItems_stable (localeCompare : string -> string -> Q) (st : AppState) :
  let input := filteredItems st in
  let out := sortedItems localeCompare st in
  (sortBy st = "price-low"%string \/ sortBy st = "price-high"%string ->
   forall p, filter (fun item => Qeq_bool (price item) p) out
             = filter (fun item => Qeq_bool (price item) p) input) /\
  (sortBy st = "rating"%string ->
   forall r, filter (fun item => Qeq_bool (rating item) r) out
             = filter (fun item => Qeq_bool (rating item) r) input) /\
  (sortBy st <> "price-low"%string -> sortBy st <> "price-high"%string ->
   sortBy st <> "rating"%string -> sortBy st <> "popular"%string ->
   consistentComparison localeCompare ->
   forall s, filter (fun item => String.eqb (name item) s) out
             = filter (fun item => String.eqb (name item) s) input).
Proof.
  intros input out. unfold out, input, sortedItems.
  assert (Hsame : forall (f : MenuItem -> Q) p a b,
             Qeq_bool (f a) p = true -> Qeq_bool (f b) p = true ->
             (f a - f b <= 0)%Q).
  { intros f p a b Ha Hb. apply Qeq_bool_iff in Ha, Hb.
    apply nonpositive_diff. rewrite Ha, Hb. apply Qle_refl. }
  split; [|split].
  - intros [Hkey|Hkey] p; rewrite Hkey; apply Array_sort_stable; intros a b Ha Hb.
    + now apply (Hsame price p).
    + now apply (Hsame price p).
  - intros Hkey r. rewrite Hkey. apply Array_sort_stable. intros a b Ha Hb.
    now apply (Hsame rating r).
  - intros H1 H2 H3 H4 [Htotal _] s. apply Array_sort_stable. intros a b Ha Hb.
    apply String.eqb_neq in H1, H2, H3, H4.
    unfold compareItems. rewrite H1, H2, H3, H4.
    apply String.eqb_eq in Ha, Hb. rewrite Ha, Hb.
    destruct (Qlt_le_dec 0 (localeCompare s s)) as [Hpos|Hle]; [|exact Hle].
    now apply Htotal.
Qed.

(** X18: for a consistent [localeCompare], filtering never reorders: the
    sorted view is the sorted catalog without the items that do not pass
    the filter.  So a category chosen while "all" is selected, and any
    search text compared with the empty one, take cards away from the
    sorted view and leave the others in their order. *)
Theorem narrowing_keeps_order (localeCompare : string -> string -> Q)
    (st : AppState) :
  consistentComparison localeCompare ->
  sortedItems localeCompare st
  = filter (filterPredicate (selectedCategory st) (searchTerm st))
           (JS.Array_sort (compareItems localeCompare (sortBy st)) (items st)) /\
  (forall c,
      selectedCategory st = "all"%string ->
      sortedItems localeCompare (setSelectedCategory c st)
      = filter (matchesCategory c) (sortedItems localeCompare st)) /\
  (forall text',
      sortedItems localeCompare (setSearchTerm text' st)
      = filter (matchesSearch text')
               (sortedItems localeCompare (setSearchTerm "" st)) /\
      Subsequence (sortedItems localeCompare (setSearchTerm text' st))
                  (sortedItems localeCompare (setSearchTerm "" st))).
Proof.
  intros Hcons.
  pose proof (compareItems_consistent localeCompare (sortBy st) Hcons) as Hcmp.
  split; [|split].
  - unfold sortedItems, filteredItems. now apply Array_sort_filter.
  - intros c Hall. unfold sortedItems.
    rewrite filteredItems_category by exact Hall.
    now apply Array_sort_filter.
  - intros text'.
    assert (H : sortedItems localeCompare (setSearchTerm text' st)
                = filter (matchesSearch text')
                         (sortedItems localeCompare (setSearchTerm "" st))).
    { unfold sortedItems. rewrite filteredItems_text.
      now apply Array_sort_filter. }
    split; [exact H | rewrite H; apply Subsequence_filter].
Qed.

Lemma narrowing_keeps_order_witness :
  sortedItems codeUnitCompare (setSearchTerm "PIZZA" Demo.session)
  = [Sample.tiramisu; Sample.margherita] /\
  Subsequence (sortedItems codeUnitCompare (setSearchTerm "PIZZA" Demo.session))
              (sortedItems codeUnitCompare (setSearchTerm "" Demo.session)).
Proof.
  split; [reflexivity|].
  apply (proj2 (proj2 (narrowing_keeps_order codeUnitCompare Demo.session
                         codeUnitCompare_consistent)) "PIZZA"%string).
Defined.
